(** * RTL translation: a shallow embedding of [RTLConverter] (app.py)

    The converter takes one assignment such as [x = 6 + 9], tokenizes the
    right-hand side, and emits register-transfer instructions for a strict
    left-to-right evaluation.

    Modelling choices.
    - A Python [str] is a [string]; a character is an [ascii], read as the
      code point U+0000..U+00FF.  The character classes below are Python's
      ([str.isspace], [str.isalpha], the [re] classes [\d] and [\w]) on that
      range.
    - [int(token)] follows CPython with its default limit of 4300 digits on
      the conversion of a string.
    - The converter object is a record; every method takes the object and
      returns the updated one next to its result.
    - The [try ... except Exception] of [convert_to_rtl] has no counterpart:
      every index used by the body is in range and [is_number] catches its
      own [ValueError]. *)

From Equations Require Import Equations.
From Stdlib Require Import Bool Arith Lia List Ascii String DecimalString DecimalNat.
From Stdlib Require Import FunInd Wellfounded.
Import ListNotations.

Local Open Scope string_scope.
Local Open Scope list_scope.
Local Open Scope nat_scope.

(** ** Characters *)

Module Char.

Definition code (c : ascii) : nat := nat_of_ascii c.

Definition between (lo hi : nat) (c : ascii) : bool :=
  (lo <=? code c) && (code c <=? hi).

(** [str.isspace] on U+0000..U+00FF: TAB..CR, FS..US and space, NEL, NBSP. *)
Definition isspace (c : ascii) : bool :=
  between 9 13 c || between 28 32 c || (code c =? 133) || (code c =? 160).

(** [\d] of [re] (Unicode decimal digits): only 0..9 below U+0100. *)
Definition isdecimal (c : ascii) : bool := between 48 57 c.

Definition ascii_letter (c : ascii) : bool :=
  between 65 90 c || between 97 122 c.

(** [str.isalpha] for one character. *)
Definition isalpha (c : ascii) : bool :=
  ascii_letter c
  || (code c =? 170) || (code c =? 181) || (code c =? 186)
  || between 192 214 c || between 216 246 c || between 248 255 c.

(** [\w] of [re]: [str.isalnum] or the underscore.  Besides letters and
    decimal digits, [isalnum] holds of the superscripts and the vulgar
    fractions of Latin-1. *)
Definition isword (c : ascii) : bool :=
  isalpha c || isdecimal c || (code c =? 95)
  || between 178 179 c || (code c =? 185) || between 188 190 c.

(** The class [[+\-*/]]. *)
Definition isop (c : ascii) : bool :=
  (code c =? 43) || (code c =? 45) || (code c =? 42) || (code c =? 47).

(** [[a-zA-Z_]] and [[a-zA-Z0-9_]]: plain ASCII ranges. *)
Definition ident_start (c : ascii) : bool :=
  ascii_letter c || (code c =? 95).

Definition ident_part (c : ascii) : bool :=
  ident_start c || between 48 57 c.

(** White space skipped by [int()] around the digits. *)
Definition int_space (c : ascii) : bool :=
  between 9 13 c || (code c =? 32) || (code c =? 133) || (code c =? 160).

Definition eqb_space (c : ascii) : bool := Ascii.eqb c " ".

End Char.

(** ** Strings *)

Module Str.

Fixpoint forallb (p : ascii -> bool) (s : string) : bool :=
  match s with
  | EmptyString => true
  | String c r => p c && forallb p r
  end.

Fixpoint existsb (p : ascii -> bool) (s : string) : bool :=
  match s with
  | EmptyString => false
  | String c r => p c || existsb p r
  end.

Fixpoint filter (p : ascii -> bool) (s : string) : string :=
  match s with
  | EmptyString => EmptyString
  | String c r => if p c then String c (filter p r) else filter p r
  end.

(** Longest prefix of characters in the class [p], and what follows it. *)
Fixpoint take_while (p : ascii -> bool) (s : string) : string :=
  match s with
  | EmptyString => EmptyString
  | String c r => if p c then String c (take_while p r) else EmptyString
  end.

Fixpoint drop_while (p : ascii -> bool) (s : string) : string :=
  match s with
  | EmptyString => EmptyString
  | String c r => if p c then drop_while p r else s
  end.

(** [sep in s] for a one-character [sep]. *)
Definition contains (sep : ascii) (s : string) : bool :=
  existsb (Ascii.eqb sep) s.

(** [s.split(sep)] for a one-character [sep]: one more part than there
    are separators; parts may be empty. *)
Fixpoint split (sep : ascii) (s : string) : list string :=
  match s with
  | EmptyString => [EmptyString]
  | String c r =>
      if Ascii.eqb c sep then EmptyString :: split sep r
      else match split sep r with
           | [] => [String c EmptyString]
           | p :: ps => String c p :: ps
           end
  end.

Definition lstrip (s : string) : string := drop_while Char.isspace s.

Fixpoint rstrip (s : string) : string :=
  match s with
  | EmptyString => EmptyString
  | String c r =>
      match rstrip r with
      | EmptyString => if Char.isspace c then EmptyString
                       else String c EmptyString
      | r' => String c r'
      end
  end.

(** [s.strip()] *)
Definition strip (s : string) : string := rstrip (lstrip s).

(** [s.replace(' ', '')] *)
Definition remove_spaces (s : string) : string :=
  filter (fun c => negb (Char.eqb_space c)) s.

(** [s.isalpha()]: non-empty and every character alphabetic. *)
Definition isalpha (s : string) : bool :=
  match s with
  | EmptyString => false
  | _ => forallb Char.isalpha s
  end.

(** [str(n)] inside an f-string, for a natural number. *)
Definition of_nat (n : nat) : string :=
  NilEmpty.string_of_uint (Nat.to_uint n).

End Str.

(** ** Regular expressions of the source *)

(** [re.findall(r'\d+|\w+|[+\-*/]', s)].  Python tries the alternatives in
    the order written at each position and keeps the first that matches;
    [+] is greedy.  A position where none matches is skipped. *)
Equations? findall_tokens (s : string) : list string
  by wf (String.length s) lt :=
findall_tokens EmptyString := [];
findall_tokens (String c r) :=
  if Char.isdecimal c then
    String c (Str.take_while Char.isdecimal r)
      :: findall_tokens (Str.drop_while Char.isdecimal r)
  else if Char.isword c then
    String c (Str.take_while Char.isword r)
      :: findall_tokens (Str.drop_while Char.isword r)
  else if Char.isop c then
    String c EmptyString :: findall_tokens r
  else findall_tokens r.
Proof.
  all: try lia.
  all: clear; induction r as [| a r IH]; simpl; [lia |];
       match goal with |- context [if ?b then _ else _] => destruct b end;
       simpl; lia.
Qed.


(** [re.match(r'^[a-zA-Z_][a-zA-Z0-9_]*$', s)]: a start character, then
    identifier characters up to the end of [s]; [$] also matches just before
    a newline that ends the string. *)
Definition match_identifier (s : string) : bool :=
  match s with
  | EmptyString => false
  | String c r =>
      Char.ident_start c
      && match Str.drop_while Char.ident_part r with
         | EmptyString => true
         | String d EmptyString => Ascii.eqb d "010"
         | _ => false
         end
  end.

(** ** The converter *)

Record RTLConverter : Type := mkRTLConverter
  { register_counter : nat;
    rtl_instructions : list string }.

(** [__init__] *)
Definition init : RTLConverter := mkRTLConverter 1 [].

Definition reset (self : RTLConverter) : RTLConverter := mkRTLConverter 1 [].

Definition parse_expression (expression : string) : list string :=
  findall_tokens (Str.remove_spaces expression).

(** The digits of [int(token)]: decimal digits, single underscores only
    between two digits, then white space up to the end.  [seen] tells that
    the previous character was a digit. *)
Fixpoint int_digits (seen : bool) (s : string) : bool :=
  match s with
  | EmptyString => seen
  | String c r =>
      if Char.isdecimal c then int_digits true r
      else if seen && Ascii.eqb c "_" then int_digits false r
      else seen && Str.forallb Char.int_space s
  end.

(** The text is a decimal integer for [int()]: white space, an optional
    sign, then [int_digits]. *)
Definition int_syntax (token : string) : bool :=
  match Str.drop_while Char.int_space token with
  | String c r =>
      if Ascii.eqb c "+" || Ascii.eqb c "-" then int_digits false r
      else int_digits false (String c r)
  | EmptyString => false
  end.

(** CPython refuses, with a [ValueError], to convert a string of more than
    [sys.int_info.default_max_str_digits] digits; leading zeros count,
    underscores do not. *)
Definition int_max_str_digits : nat := 4300.

Definition int_digit_count (token : string) : nat :=
  String.length (Str.filter Char.isdecimal token).

(** [int(token)] raises no [ValueError]. *)
Definition is_number (token : string) : bool :=
  int_syntax token && (int_digit_count token <=? int_max_str_digits).

Definition is_operator (token : string) : bool :=
  String.eqb token "+" || String.eqb token "-"
  || String.eqb token "*" || String.eqb token "/".

Definition get_next_register (self : RTLConverter) : string * RTLConverter :=
  let register_name := ("R" ++ Str.of_nat (register_counter self))%string in
  (register_name,
   mkRTLConverter (register_counter self + 1) (rtl_instructions self)).

(** [self.rtl_instructions.append(instruction)] *)
Definition append_instruction (self : RTLConverter) (instruction : string)
  : RTLConverter :=
  mkRTLConverter (register_counter self) (rtl_instructions self ++ [instruction]).

(** What the [while] loop of [convert_to_rtl] hands back: a [return] taken
    inside the loop, or the loop condition turning false. *)
Inductive loop_result : Type :=
| Returned (out : list string * string) (self : RTLConverter)
| Finished (current_register : option string) (self : RTLConverter).

(** [f"{current_register}"] and the truth value of [current_register]. *)
Definition show_register (current_register : option string) : string :=
  match current_register with
  | Some r => r
  | None => "None"
  end.

Definition truthy (current_register : option string) : bool :=
  match current_register with
  | Some (String _ _) => true
  | _ => false
  end.

(** [tokens[i]]; the loop only reads indices below [len(tokens)]. *)
Definition item (tokens : list string) (i : nat) : string :=
  nth i tokens EmptyString.

Equations? while_loop (tokens : list string) (i : nat)
    (current_register : option string) (self : RTLConverter) : loop_result
  by wf (List.length tokens - i) lt :=
while_loop tokens i current_register self with lt_dec i (List.length tokens) := {
  | right _ := Finished current_register self
  | left _ :=
    if i =? 0 then
      if is_number (item tokens i) || Str.isalpha (item tokens i) then
        let (current_register, self) := get_next_register self in
        let self :=
          append_instruction self (current_register ++ " <- " ++ item tokens i) in
        while_loop tokens (i + 1) (Some current_register) self
      else
        Returned ([], ("Error: Expected number or variable at position "
                       ++ Str.of_nat i)%string) self
    else if i mod 2 =? 1 then
      if negb (is_operator (item tokens i)) then
        Returned ([], ("Error: Expected operator at position "
                       ++ Str.of_nat i)%string) self
      else if List.length tokens <=? i + 1 then
        Returned ([], "Error: Missing operand after operator") self
      else
        let next_operand := item tokens (i + 1) in
        if negb (is_number next_operand || Str.isalpha next_operand) then
          Returned ([], ("Error: Expected number or variable at position "
                         ++ Str.of_nat (i + 1))%string) self
        else
          let (next_register, self) := get_next_register self in
          let self :=
            append_instruction self (next_register ++ " <- " ++ next_operand) in
          let (result_register, self) := get_next_register self in
          let operator := item tokens i in
          let self :=
            append_instruction self
              (result_register ++ " <- " ++ show_register current_register
                 ++ " " ++ operator ++ " " ++ next_register) in
          while_loop tokens (i + 1 + 1) (Some result_register) self
    else while_loop tokens (i + 1) current_register self }.
Proof. all: lia. Qed.

Definition convert_to_rtl (self : RTLConverter) (expression : string)
  : (list string * string) * RTLConverter :=
  let self := reset self in
  if negb (Str.contains "=" expression) then
    (([], "Error: Expression must contain an assignment (=)"), self)
  else
    let parts := Str.split "=" expression in
    if negb (List.length parts =? 2) then
      (([], "Error: Invalid assignment format"), self)
    else
      let variable := Str.strip (item parts 0) in
      let expr := Str.strip (item parts 1) in
      if negb (match_identifier variable) then
        (([], "Error: Invalid variable name"), self)
      else
        let tokens := parse_expression expr in
        if List.length tokens =? 0 then (([], "Error: Empty expression"), self)
        else if List.length tokens =? 1 then
          if is_number (item tokens 0) || Str.isalpha (item tokens 0) then
            let self :=
              append_instruction self (variable ++ " <- " ++ item tokens 0) in
            ((rtl_instructions self, ""), self)
          else (([], "Error: Invalid single token"), self)
        else
          match while_loop tokens 0 None self with
          | Returned out self => (out, self)
          | Finished current_register self =>
              let self :=
                if truthy current_register then
                  append_instruction self
                    (variable ++ " <- " ++ show_register current_register)
                else self in
              ((rtl_instructions self, ""), self)
          end.

(** ** Vocabulary of the statements *)

(** The operand test the source writes out three times:
    [self.is_number(t) or t.isalpha()]. *)
Definition accepts_operand (token : string) : bool :=
  is_number token || Str.isalpha token.

(** [variable] and [tokens] as [convert_to_rtl] computes them. *)
Definition lhs_variable (expression : string) : string :=
  Str.strip (item (Str.split "=" expression) 0).

Definition rhs_tokens (expression : string) : list string :=
  parse_expression (Str.strip (item (Str.split "=" expression) 1)).

Definition operand_count (tokens : list string) : nat :=
  List.length (List.filter accepts_operand tokens).

(** [f"R{n}"] *)
Definition reg_name (n : nat) : string := ("R" ++ Str.of_nat n)%string.

(** An instruction is [dest <- src] or [dest <- src1 op src2], its fields
    separated by single spaces: the destination is the first field, the
    sources are the fields after the arrow. *)
Definition instr_fields (instruction : string) : list string :=
  Str.split " " instruction.

Definition instr_dest (instruction : string) : string :=
  item (instr_fields instruction) 0.

Definition instr_srcs (instruction : string) : list string :=
  skipn 2 (instr_fields instruction).

(** A field that reads [R] followed by one or more decimal digits. *)
Definition is_register_name (field : string) : bool :=
  match field with
  | String c (String d r) =>
      Ascii.eqb c "R" && Str.forallb Char.isdecimal (String d r)
  | _ => false
  end.

(** A character that can be part of a token. *)
Definition token_char (c : ascii) : bool := Char.isword c || Char.isop c.

(** [k] successive calls of [get_next_register]: the names handed out, in
    order, and the converter afterwards. *)
Fixpoint allocate (k : nat) (self : RTLConverter)
  : list string * RTLConverter :=
  match k with
  | 0 => ([], self)
  | S k' =>
      let (r, self) := get_next_register self in
      let (rs, self) := allocate k' self in
      (r :: rs, self)
  end.

(** The loop from an odd index on, by recursion on the tokens left:
    an operator, then an operand, two instructions for each such pair. *)
Fixpoint pairs_loop (rest : list string) (i : nat) (acc : option string)
    (self : RTLConverter) : loop_result :=
  match rest with
  | [] => Finished acc self
  | operator :: rest1 =>
      if negb (is_operator operator) then
        Returned ([], ("Error: Expected operator at position "
                       ++ Str.of_nat i)%string) self
      else
        match rest1 with
        | [] => Returned ([], "Error: Missing operand after operator") self
        | next_operand :: rest2 =>
            if negb (accepts_operand next_operand) then
              Returned ([], ("Error: Expected number or variable at position "
                             ++ Str.of_nat (i + 1))%string) self
            else
              let c := register_counter self in
              pairs_loop rest2 (i + 2) (Some (reg_name (c + 1)))
                (mkRTLConverter (c + 2)
                   (rtl_instructions self
                      ++ [(reg_name c ++ " <- " ++ next_operand)%string;
                          (reg_name (c + 1) ++ " <- " ++ show_register acc
                             ++ " " ++ operator ++ " " ++ reg_name c)%string]))
        end
  end.

Functional Scheme pairs_loop_ind := Induction for pairs_loop Sort Prop.

(** The tokenizer as the specification words it: at each position the
    longest prefix among a run of digits, a run of word characters and a
    single operator character; a position where none matches is skipped. *)
Definition longer (a b : string) : string :=
  if String.length a <? String.length b then b else a.

Definition longest_prefix (s : string) : string :=
  longer
    (longer (Str.take_while Char.isdecimal s) (Str.take_while Char.isword s))
    (match s with
     | String c _ => if Char.isop c then String c EmptyString else EmptyString
     | EmptyString => EmptyString
     end).

Fixpoint drop (n : nat) (s : string) : string :=
  match n, s with
  | S n', String _ r => drop n' r
  | _, _ => s
  end.

Equations? longest_prefix_tokens (s : string) : list string
  by wf (String.length s) lt :=
longest_prefix_tokens EmptyString := [];
longest_prefix_tokens (String c r) :=
  match longest_prefix (String c r) with
  | EmptyString => longest_prefix_tokens r
  | String _ m => String c m :: longest_prefix_tokens (drop (String.length m) r)
  end.
Proof.
  all: simpl; try lia.
  clear. generalize (String.length m). intros n. revert r.
  induction n as [| n IH]; intros [| a r]; simpl; try lia.
  specialize (IH r). lia.
Qed.

(** The tokenizer of the specification on the right-hand side with its
    spaces removed. *)
Definition spec_parse_expression (expression : string) : list string :=
  longest_prefix_tokens (Str.remove_spaces expression).

(** Operator, operand, operator, operand, ...: what the loop accepts after
    the first operand. *)
Fixpoint alternates (rest : list string) : bool :=
  match rest with
  | [] => true
  | operator :: next_operand :: rest2 =>
      is_operator operator && accepts_operand next_operand && alternates rest2
  | _ => false
  end.

(** The instructions the loop emits for such a list, the next register
    number being [c] and the accumulator [acc]. *)
Fixpoint chain (c : nat) (acc : string) (rest : list string) : list string :=
  match rest with
  | operator :: next_operand :: rest2 =>
      (reg_name c ++ " <- " ++ next_operand)%string
      :: (reg_name (c + 1) ++ " <- " ++ acc
            ++ " " ++ operator ++ " " ++ reg_name c)%string
      :: chain (c + 2) (reg_name (c + 1)) rest2
  | _ => []
  end.

(** The accumulator after the loop. *)
Definition last_register (c : nat) (acc : string) (rest : list string)
  : string :=
  match rest with
  | [] => acc
  | _ => reg_name (c + List.length rest - 1)
  end.

(** The tokens [convert_to_rtl] translates: an operand, then operator and
    operand in turn; and the instructions it returns for them. *)
Definition well_formed (tokens : list string) : bool :=
  match tokens with
  | [] => false
  | t0 :: rest => accepts_operand t0 && alternates rest
  end.

Definition emitted (variable : string) (tokens : list string) : list string :=
  match tokens with
  | [] => []
  | [t] => [(variable ++ " <- " ++ t)%string]
  | t0 :: rest =>
      (reg_name 1 ++ " <- " ++ t0)%string
      :: chain 2 (reg_name 1) rest
      ++ [(variable ++ " <- " ++ last_register 2 (reg_name 1) rest)%string]
  end.

(** The checks made before the tokens are looked at. *)
Definition assignment_ok (expression : string) : bool :=
  Str.contains "=" expression
  && (List.length (Str.split "=" expression) =? 2)
  && match_identifier (lhs_variable expression).

(** Whether the last, respectively the first, character of [s] is in the
    class [p]. *)
Fixpoint ends_in (p : ascii -> bool) (s : string) : bool :=
  match s with
  | EmptyString => false
  | String c EmptyString => p c
  | String _ r => ends_in p r
  end.

Definition starts_in (p : ascii -> bool) (s : string) : bool :=
  match s with
  | EmptyString => false
  | String c _ => p c
  end.

(** Every register read by an instruction of [instrs] is written by an
    instruction before it, or is among [defined]. *)
Fixpoint well_scoped (defined : list string) (instrs : list string) : Prop :=
  match instrs with
  | [] => True
  | instruction :: rest =>
      (forall w, In w (instr_srcs instruction) ->
                 is_register_name w = true -> In w defined)
      /\ well_scoped (instr_dest instruction :: defined) rest
  end.

(** The converter a loop result carries. *)
Definition loop_state (r : loop_result) : RTLConverter :=
  match r with
  | Returned _ self => self
  | Finished _ self => self
  end.

(** The three kinds of token: a run of digits, a run of word characters
    that does not start with a digit, one operator character. *)
Definition token_shape (token : string) : bool :=
  match token with
  | EmptyString => false
  | String c w =>
      (Char.isdecimal c && Str.forallb Char.isdecimal w)
      || (Char.isword c && negb (Char.isdecimal c) && Str.forallb Char.isword w)
      || (Char.isop c && String.eqb w EmptyString)
  end.

(** What the loop expects at index [j]: an operand at an even index, an
    operator at an odd one. *)
Definition token_ok_at (tokens : list string) (j : nat) : bool :=
  if Nat.even j then accepts_operand (item tokens j)
  else is_operator (item tokens j).

(** Some digit of [s] is directly followed by a word character that is not
    a digit (a letter, an underscore, ...). *)
Fixpoint digit_then_letter (s : string) : bool :=
  match s with
  | String a r =>
      Char.isdecimal a
      && starts_in (fun b => Char.isword b && negb (Char.isdecimal b)) r
      || digit_then_letter r
  | EmptyString => false
  end.

(** The tokens written one after the other. *)
Fixpoint flatten (tokens : list string) : string :=
  match tokens with
  | [] => EmptyString
  | t :: ts => (t ++ flatten ts)%string
  end.

(** A test on every code point. *)
Definition all_bool (f : bool -> bool) : bool := f true && f false.

Definition all_ascii (f : ascii -> bool) : bool :=
  all_bool (fun a => all_bool (fun b => all_bool (fun c => all_bool (fun d =>
  all_bool (fun e => all_bool (fun g => all_bool (fun h => all_bool (fun i =>
    f (Ascii a b c d e g h i))))))))).

(** ** The page around the converter ([main]) *)

(** [s.count(sep)] for a one-character [sep]. *)
Fixpoint count_char (sep : ascii) (s : string) : nat :=
  match s with
  | EmptyString => 0
  | String c r => (if Ascii.eqb c sep then 1 else 0) + count_char sep r
  end.

Definition newline : ascii := "010".

(** [f"{i}. {instruction}" for i, instruction in enumerate(instrs, i)] *)
Fixpoint numbered_from (i : nat) (instrs : list string) : list string :=
  match instrs with
  | [] => []
  | instruction :: rest =>
      (Str.of_nat i ++ ". " ++ instruction)%string :: numbered_from (S i) rest
  end.

(** The lines shown with [st.code], numbered from 1. *)
Definition numbered (instrs : list string) : list string :=
  numbered_from 1 instrs.

(** [rtl_text]: the numbered lines joined with newlines. *)
Definition rtl_text (instrs : list string) : string :=
  String.concat (String newline EmptyString) (numbered instrs).

(** [file_name] of the download button. *)
Definition file_name (expression : string) : string :=
  ("rtl_instructions_" ++ Str.strip (item (Str.split "=" expression) 0)
     ++ ".txt")%string.

(** What the page shows after the button is pressed: the error, or the
    numbered instructions with the download. *)
Inductive shown : Type :=
| ShowError (message : string)
| ShowResult (lines : list string) (data : string) (name : string).

(** The body of [if st.button(...)]: a new converter, one call, and
    [if error: ... else: ...]. *)
Definition on_convert (expression : string) : shown :=
  let converter := init in
  let '(rtl_instructions, error) := fst (convert_to_rtl converter expression) in
  match error with
  | String _ _ => ShowError error
  | EmptyString =>
      ShowResult (numbered rtl_instructions) (rtl_text rtl_instructions)
        (file_name expression)
  end.

(** [token_ok_at] for the tokens after the first one: an operator at an
    even index of the rest, an operand at an odd one. *)
Definition rest_ok_at (rest : list string) (m : nat) : bool :=
  if Nat.even m then is_operator (item rest m)
  else accepts_operand (item rest m).

(** [c * n]: the character [c] written [n] times. *)
Fixpoint replicate (n : nat) (c : ascii) : string :=
  match n with
  | 0 => EmptyString
  | S n' => String c (replicate n' c)
  end.

(** * Properties *)

(** ** Characters: facts checked on all 256 code points *)

Lemma all_bool_spec f : all_bool f = true -> forall b, f b = true.
Proof.
  unfold all_bool. intros H b. apply andb_prop in H. destruct H, b; assumption.
Qed.

Lemma all_ascii_spec f : all_ascii f = true -> forall c, f c = true.
Proof.
  intros H [a b c d e g h i]. unfold all_ascii in H.
  apply all_bool_spec with (b := a) in H.
  apply all_bool_spec with (b := b) in H.
  apply all_bool_spec with (b := c) in H.
  apply all_bool_spec with (b := d) in H.
  apply all_bool_spec with (b := e) in H.
  apply all_bool_spec with (b := g) in H.
  apply all_bool_spec with (b := h) in H.
  apply all_bool_spec with (b := i) in H.
  exact H.
Qed.

(** [char_fact] proves [forall c, p c = true -> q c = true] and the like by
    running the classes on every code point. *)
Ltac char_fact :=
  let c := fresh "c" in
  let H := fresh "H" in
  let F := fresh "F" in
  intros c;
  match goal with
  | |- ?p = true -> ?q = true =>
      let f := eval pattern c in (implb p q) in
      match f with
      | ?g _ =>
          intros H;
          assert (F : all_ascii g = true) by (vm_compute; reflexivity);
          apply all_ascii_spec with (c := c) in F; cbv beta in F;
          rewrite H in F; cbn [implb] in F; exact F
      end
  | |- ?p = true -> ?q = false =>
      let f := eval pattern c in (implb p (negb q)) in
      match f with
      | ?g _ =>
          intros H;
          assert (F : all_ascii g = true) by (vm_compute; reflexivity);
          apply all_ascii_spec with (c := c) in F; cbv beta in F;
          rewrite H in F; cbn [implb] in F;
          apply negb_true_iff in F; exact F
      end
  end.

Lemma isdecimal_isword : forall c, Char.isdecimal c = true -> Char.isword c = true.
Proof. char_fact. Qed.

Lemma isalpha_not_decimal : forall c, Char.isalpha c = true -> Char.isdecimal c = false.
Proof. char_fact. Qed.

Lemma isop_not_word : forall c, Char.isop c = true -> Char.isword c = false.
Proof. char_fact. Qed.

Lemma isspace_not_token : forall c, Char.isspace c = true -> token_char c = false.
Proof. char_fact. Qed.

Lemma space_not_token : forall c, Char.eqb_space c = true -> token_char c = false.
Proof. char_fact. Qed.

Lemma token_not_space : forall c, token_char c = true -> Char.eqb_space c = false.
Proof. char_fact. Qed.

Lemma ident_part_not_space : forall c, Char.ident_part c = true -> Char.eqb_space c = false.
Proof. char_fact. Qed.

Lemma ident_start_part : forall c, Char.ident_start c = true -> Char.ident_part c = true.
Proof. char_fact. Qed.

Lemma isdecimal_not_space : forall c, Char.isdecimal c = true -> Char.eqb_space c = false.
Proof. char_fact. Qed.


(** ** The loop of [convert_to_rtl] *)

Lemma skipn_item (tokens : list string) i :
  i < List.length tokens ->
  skipn i tokens = item tokens i :: skipn (i + 1) tokens.
Proof.
  revert i. induction tokens as [| t ts IH]; intros [| i] H; simpl in *;
    try lia; try reflexivity.
  rewrite IH by lia. reflexivity.
Qed.

Lemma skipn_all_nil (tokens : list string) i :
  List.length tokens <= i -> skipn i tokens = [].
Proof.
  revert i. induction tokens as [| t ts IH]; intros [| i] H; simpl in *;
    try lia; try reflexivity.
  apply IH. lia.
Qed.

Lemma while_loop_exit tokens i cur self :
  List.length tokens <= i -> while_loop tokens i cur self = Finished cur self.
Proof.
  intros H. rewrite while_loop_equation_1.
  destruct (lt_dec i (List.length tokens)) as [Hlt | Hn]; [lia | reflexivity].
Qed.

(** The first iteration: the seed operand. *)
Lemma while_loop_seed tokens cur self :
  0 < List.length tokens ->
  while_loop tokens 0 cur self =
  if accepts_operand (item tokens 0) then
    while_loop tokens 1 (Some (reg_name (register_counter self)))
      (mkRTLConverter (register_counter self + 1)
         (rtl_instructions self
            ++ [(reg_name (register_counter self) ++ " <- " ++ item tokens 0)%string]))
  else
    Returned ([], ("Error: Expected number or variable at position "
                   ++ Str.of_nat 0)%string) self.
Proof.
  intros H. rewrite while_loop_equation_1.
  destruct (lt_dec 0 (List.length tokens)) as [Hl | Hn]; [| lia].
  reflexivity.
Qed.

(** An iteration at an odd index: one operator and the operand after it. *)
Lemma while_loop_odd tokens i cur self :
  i < List.length tokens -> i mod 2 = 1 ->
  while_loop tokens i cur self =
  if negb (is_operator (item tokens i)) then
    Returned ([], ("Error: Expected operator at position "
                   ++ Str.of_nat i)%string) self
  else if List.length tokens <=? i + 1 then
    Returned ([], "Error: Missing operand after operator"%string) self
  else if negb (accepts_operand (item tokens (i + 1))) then
    Returned ([], ("Error: Expected number or variable at position "
                   ++ Str.of_nat (i + 1))%string) self
  else
    let c := register_counter self in
    while_loop tokens (i + 2) (Some (reg_name (c + 1)))
      (mkRTLConverter (c + 2)
         (rtl_instructions self
            ++ [(reg_name c ++ " <- " ++ item tokens (i + 1))%string;
                (reg_name (c + 1) ++ " <- " ++ show_register cur
                   ++ " " ++ item tokens i ++ " " ++ reg_name c)%string])).
Proof.
  intros H Hodd. rewrite while_loop_equation_1.
  destruct (lt_dec i (List.length tokens)) as [Hl | Hn]; [| lia].
  unfold while_loop_unfold_clause_1.
  assert (E0 : (i =? 0) = false) by (apply Nat.eqb_neq; intros ->; discriminate).
  rewrite E0, Hodd. cbn [Nat.eqb].
  destruct (negb (is_operator (item tokens i))); [reflexivity |].
  destruct (List.length tokens <=? i + 1); [reflexivity |].
  cbv zeta. fold (accepts_operand (item tokens (i + 1))).
  destruct (negb (accepts_operand (item tokens (i + 1)))); [reflexivity |].
  unfold get_next_register, append_instruction, reg_name.
  cbn [register_counter rtl_instructions].
  rewrite <- !Nat.add_assoc. cbn [Nat.add].
  rewrite <- app_assoc. reflexivity.
Qed.

Lemma odd_succ_succ i : i mod 2 = 1 -> (i + 2) mod 2 = 1.
Proof.
  intros H. replace (i + 2) with (i + 1 * 2) by lia.
  rewrite Nat.Div0.mod_add. exact H.
Qed.

(** From an odd index on, the loop is [pairs_loop] on the tokens left. *)
Lemma while_loop_pairs tokens :
  forall n i cur self,
    List.length tokens - i <= n -> i mod 2 = 1 ->
    while_loop tokens i cur self = pairs_loop (skipn i tokens) i cur self.
Proof.
  induction n as [| n IH]; intros i cur self Hn Hodd.
  - rewrite while_loop_exit by lia. rewrite skipn_all_nil by lia. reflexivity.
  - destruct (le_lt_dec (List.length tokens) i) as [Hge | Hlt].
    + rewrite while_loop_exit by lia. rewrite skipn_all_nil by lia. reflexivity.
    + rewrite while_loop_odd by assumption.
      rewrite (skipn_item tokens i) by assumption. cbn [pairs_loop].
      destruct (negb (is_operator (item tokens i))); [reflexivity |].
      destruct (Nat.leb_spec (List.length tokens) (i + 1)) as [Hle | Hgt].
      * rewrite skipn_all_nil by lia. reflexivity.
      * rewrite (skipn_item tokens (i + 1)) by assumption.
        destruct (negb (accepts_operand (item tokens (i + 1)))); [reflexivity |].
        cbv zeta. rewrite IH by (try apply odd_succ_succ; try assumption; lia).
        replace (i + 1 + 1) with (i + 2) by lia. reflexivity.
Qed.

(** The whole loop on two or more tokens. *)
Lemma while_loop_run t0 rest self :
  while_loop (t0 :: rest) 0 None self =
  if accepts_operand t0 then
    pairs_loop rest 1 (Some (reg_name (register_counter self)))
      (mkRTLConverter (register_counter self + 1)
         (rtl_instructions self
            ++ [(reg_name (register_counter self) ++ " <- " ++ t0)%string]))
  else
    Returned ([], ("Error: Expected number or variable at position "
                   ++ Str.of_nat 0)%string) self.
Proof.
  rewrite while_loop_seed by (simpl; lia).
  change (item (t0 :: rest) 0) with t0.
  destruct (accepts_operand t0); [| reflexivity].
  rewrite (while_loop_pairs (t0 :: rest) (List.length (t0 :: rest)))
    by (try reflexivity; lia).
  reflexivity.
Qed.

Lemma negb_false_true b : negb b = false -> b = true.
Proof. destruct b; simpl; congruence. Qed.

(** A list the loop accepts is run to its end, emitting [chain]. *)
Lemma pairs_loop_alternates rest :
  forall i acc self,
    alternates rest = true ->
    pairs_loop rest i (Some acc) self =
    Finished (Some (last_register (register_counter self) acc rest))
      (mkRTLConverter (register_counter self + List.length rest)
         (rtl_instructions self ++ chain (register_counter self) acc rest)).
Proof.
  induction rest as [rest IH] using (well_founded_induction
    (wf_inverse_image _ nat _ (@List.length string) lt_wf)).
  intros i acc self Halt.
  destruct rest as [| op [| t rest2]]; try discriminate.
  - destruct self as [c b]. simpl. rewrite Nat.add_0_r, app_nil_r. reflexivity.
  - cbn [alternates] in Halt.
    apply andb_prop in Halt as [Halt H2]. apply andb_prop in Halt as [Hop Ht].
    cbn [pairs_loop]. rewrite Hop, Ht. cbn [negb].
    rewrite IH by (simpl; auto; lia).
    cbn [register_counter rtl_instructions show_register chain List.length].
    f_equal.
    + f_equal. unfold last_register. destruct rest2 as [| x rest3].
      * simpl. f_equal. lia.
      * f_equal. simpl. lia.
    + f_equal; [lia |]. rewrite <- app_assoc. reflexivity.
Qed.

(** Conversely the loop only finishes on such a list. *)
Lemma pairs_loop_finished rest i acc self cur self' :
  pairs_loop rest i acc self = Finished cur self' -> alternates rest = true.
Proof.
  functional induction (pairs_loop rest i acc self); intros H;
    try discriminate; cbn [alternates]; auto.
  apply negb_false_true in e0. apply negb_false_true in e2.
  rewrite e0. unfold accepts_operand in *. rewrite e2. simpl. auto.
Qed.

(** A [return] inside the loop hands back no instruction and a message. *)
Lemma pairs_loop_returned rest i acc self out self' :
  pairs_loop rest i acc self = Returned out self' ->
  fst out = [] /\ snd out <> EmptyString.
Proof.
  functional induction (pairs_loop rest i acc self); intros H;
    try discriminate; auto;
    inversion H; subst; simpl; split; auto; discriminate.
Qed.

(** ** [convert_to_rtl] by cases *)

Lemma last_register_truthy c acc rest :
  rest <> [] -> truthy (Some (last_register c acc rest)) = true.
Proof. destruct rest; [congruence | reflexivity]. Qed.

Lemma chain_length c acc rest :
  alternates rest = true -> List.length (chain c acc rest) = List.length rest.
Proof.
  revert c acc.
  induction rest as [rest IH] using (well_founded_induction
    (wf_inverse_image _ nat _ (@List.length string) lt_wf)).
  intros c acc H. destruct rest as [| a [| b l]]; try discriminate; auto.
  cbn [alternates] in H. apply andb_prop in H as [_ H].
  cbn [chain List.length]. rewrite IH; simpl; auto.
Qed.

(** Success: the assignment is well formed and so are the tokens. *)
Lemma convert_to_rtl_ok self expression :
  assignment_ok expression = true ->
  well_formed (rhs_tokens expression) = true ->
  convert_to_rtl self expression =
  let instrs := emitted (lhs_variable expression) (rhs_tokens expression) in
  ((instrs, EmptyString), mkRTLConverter (List.length instrs) instrs).
Proof.
  unfold assignment_ok, convert_to_rtl. intros Ha Hw.
  apply andb_prop in Ha as [Ha Hid]. apply andb_prop in Ha as [Hc Hl].
  rewrite Hc, Hl. cbn [negb].
  fold (lhs_variable expression). rewrite Hid. cbn [negb].
  fold (rhs_tokens expression).
  destruct (rhs_tokens expression) as [| t0 [| op rest]] eqn:Et;
    try discriminate.
  - cbn [List.length Nat.eqb item nth]. simpl in Hw. rewrite andb_true_r in Hw.
    unfold accepts_operand in Hw. rewrite Hw. reflexivity.
  - cbn [List.length Nat.eqb]. cbn [well_formed] in Hw.
    apply andb_prop in Hw as [H0 Hr].
    rewrite while_loop_run, H0, pairs_loop_alternates by assumption.
    rewrite last_register_truthy by discriminate.
    cbv zeta. unfold append_instruction, reset, emitted.
    cbn [register_counter rtl_instructions show_register app].
    f_equal. f_equal. cbn [List.length]. rewrite length_app.
    rewrite chain_length by assumption. simpl. lia.
Qed.

(** Failure: anything else; no instruction comes back, a message does. *)
Lemma convert_to_rtl_error self expression :
  assignment_ok expression && well_formed (rhs_tokens expression) = false ->
  fst (fst (convert_to_rtl self expression)) = []
  /\ snd (fst (convert_to_rtl self expression)) <> EmptyString.
Proof.
  unfold assignment_ok, convert_to_rtl. intros H.
  destruct (Str.contains "=" expression); cbn [negb andb] in *;
    [| split; [reflexivity | discriminate]].
  destruct (List.length (Str.split "=" expression) =? 2); cbn [negb andb] in *;
    [| split; [reflexivity | discriminate]].
  fold (lhs_variable expression).
  destruct (match_identifier (lhs_variable expression)); cbn [negb andb] in *;
    [| split; [reflexivity | discriminate]].
  fold (rhs_tokens expression).
  destruct (rhs_tokens expression) as [| t0 [| op rest]] eqn:Et.
  - split; [reflexivity | discriminate].
  - cbn [List.length Nat.eqb item nth]. simpl in H. rewrite andb_true_r in H.
    unfold accepts_operand in H. rewrite H. split; [reflexivity | discriminate].
  - cbn [List.length Nat.eqb]. rewrite while_loop_run.
    cbn [well_formed] in H.
    destruct (accepts_operand t0); cbn [andb] in H;
      [| split; [reflexivity | discriminate]].
    destruct (pairs_loop (op :: rest) 1 _ _) as [out s | cur s] eqn:Ep.
    + apply pairs_loop_returned in Ep. exact Ep.
    + apply pairs_loop_finished in Ep. congruence.
Qed.

Lemma convert_to_rtl_success self expression instrs self' :
  convert_to_rtl self expression = ((instrs, EmptyString), self') ->
  assignment_ok expression = true
  /\ well_formed (rhs_tokens expression) = true
  /\ instrs = emitted (lhs_variable expression) (rhs_tokens expression)
  /\ self' = mkRTLConverter (List.length instrs) instrs.
Proof.
  intros H.
  destruct (assignment_ok expression && well_formed (rhs_tokens expression))
    eqn:E.
  - apply andb_prop in E as [Ha Hw].
    rewrite (convert_to_rtl_ok self expression Ha Hw) in H. cbv zeta in H.
    inversion H; subst. auto.
  - apply (convert_to_rtl_error self) in E. rewrite H in E. simpl in E.
    destruct E as [_ E]. congruence.
Qed.

(** ** Counting operands and instructions *)

Lemma is_operator_not_operand token :
  is_operator token = true -> accepts_operand token = false.
Proof.
  unfold is_operator. intros H.
  repeat (apply orb_prop in H as [H | H]);
    apply String.eqb_eq in H; subst; reflexivity.
Qed.

Lemma alternates_operand_count rest :
  alternates rest = true -> 2 * operand_count rest = List.length rest.
Proof.
  unfold operand_count.
  induction rest as [rest IH] using (well_founded_induction
    (wf_inverse_image _ nat _ (@List.length string) lt_wf)).
  intros H. destruct rest as [| op [| t rest2]]; try discriminate; auto.
  cbn [alternates] in H.
  apply andb_prop in H as [H H2]. apply andb_prop in H as [Hop Ht].
  cbn [List.filter]. rewrite (is_operator_not_operand op Hop), Ht.
  cbn [List.length]. specialize (IH rest2). simpl in IH.
  specialize (IH ltac:(lia) H2). lia.
Qed.

Lemma emitted_length variable t0 rest :
  alternates rest = true ->
  List.length (emitted variable (t0 :: rest)) =
  match rest with [] => 1 | _ => List.length rest + 2 end.
Proof.
  intros H. destruct rest as [| op rest]; [reflexivity |].
  unfold emitted. cbn [List.length]. rewrite length_app, chain_length by assumption.
  simpl. lia.
Qed.

Lemma well_formed_operand_count tokens :
  well_formed tokens = true ->
  List.length tokens + 1 = 2 * operand_count tokens.
Proof.
  destruct tokens as [| t0 rest]; [discriminate |]. cbn [well_formed].
  intros H. apply andb_prop in H as [H0 Hr].
  pose proof (alternates_operand_count rest Hr) as Hc.
  unfold operand_count in *. cbn [List.filter]. rewrite H0. simpl in *. lia.
Qed.

Lemma well_formed_emitted_length variable tokens :
  well_formed tokens = true ->
  List.length (emitted variable tokens) =
  if operand_count tokens =? 1 then 1 else 2 * operand_count tokens.
Proof.
  intros H. pose proof (well_formed_operand_count tokens H) as Hc.
  destruct tokens as [| t0 rest]; [discriminate |].
  cbn [well_formed] in H. apply andb_prop in H as [H0 Hr].
  rewrite emitted_length by assumption.
  destruct rest as [| op rest].
  - simpl in Hc. replace (operand_count [t0]) with 1 by lia. reflexivity.
  - cbn [List.length] in *.
    destruct (Nat.eqb_spec (operand_count (t0 :: op :: rest)) 1); lia.
Qed.

(** C1. Translating [x = 6 + 9] succeeds with an empty error string and
    returns exactly [R1 <- 6], [R2 <- 9], [R3 <- R1 + R2], [x <- R3], in
    that order, whatever earlier calls left in the converter. *)
Theorem C1_x_6_plus_9 :
  forall self,
    fst (convert_to_rtl self "x = 6 + 9") =
    (["R1 <- 6"; "R2 <- 9"; "R3 <- R1 + R2"; "x <- R3"]%string, EmptyString).
Proof. intros self. reflexivity. Qed.

(** C2. For every input that translates successfully, with [n] the number
    of operands among the tokens of the right-hand side, the returned list
    has [2*(n-1) + 1 + 1] instructions when [n >= 2] and one instruction
    when [n = 1]; a successful translation has at least one operand. *)
Theorem C2_instruction_count :
  forall self expression instrs self',
    convert_to_rtl self expression = ((instrs, EmptyString), self') ->
    let n := operand_count (rhs_tokens expression) in
    1 <= n
    /\ (2 <= n -> List.length instrs = 2 * (n - 1) + 1 + 1)
    /\ (n = 1 -> List.length instrs = 1).
Proof.
  intros self expression instrs self' H n.
  apply convert_to_rtl_success in H as (_ & Hw & -> & _).
  pose proof (well_formed_operand_count _ Hw) as Hc.
  rewrite (well_formed_emitted_length _ _ Hw). fold n in Hc |- *.
  destruct (Nat.eqb_spec n 1); repeat split; lia.
Qed.

Lemma C2_instruction_count_witness :
  convert_to_rtl init "x = 6 + 9"
  = ((["R1 <- 6"; "R2 <- 9"; "R3 <- R1 + R2"; "x <- R3"]%string, EmptyString),
     mkRTLConverter 4 ["R1 <- 6"; "R2 <- 9"; "R3 <- R1 + R2"; "x <- R3"]%string)
  /\ (let n := operand_count (rhs_tokens "x = 6 + 9") in
      1 <= n
      /\ (2 <= n ->
          List.length ["R1 <- 6"; "R2 <- 9"; "R3 <- R1 + R2"; "x <- R3"]%string
          = 2 * (n - 1) + 1 + 1)
      /\ (n = 1 ->
          List.length ["R1 <- 6"; "R2 <- 9"; "R3 <- R1 + R2"; "x <- R3"]%string
          = 1)).
Proof.
  split; [reflexivity |].
  apply (C2_instruction_count init "x = 6 + 9"
           ["R1 <- 6"; "R2 <- 9"; "R3 <- R1 + R2"; "x <- R3"]%string
           (mkRTLConverter 4
              ["R1 <- 6"; "R2 <- 9"; "R3 <- R1 + R2"; "x <- R3"]%string)).
  reflexivity.
Defined.

(** C3, as stated, fails: [x = 6 + 9] translates successfully into four
    instructions. *)
Lemma C3_counterexample :
  exists instrs self',
    convert_to_rtl init "x = 6 + 9" = ((instrs, EmptyString), self')
    /\ ~ Nat.Odd (List.length instrs).
Proof.
  eexists. eexists. split; [reflexivity |].
  intros [k Hk]. simpl in Hk. lia.
Qed.

(** C3, amended. For every input that translates successfully, the number
    of returned instructions is 1 when the right-hand side has a single
    operand, and is the even number [2 * n] when it has [n >= 2] operands. *)
Theorem C3_instruction_count_parity :
  forall self expression instrs self',
    convert_to_rtl self expression = ((instrs, EmptyString), self') ->
    let n := operand_count (rhs_tokens expression) in
    (n = 1 /\ List.length instrs = 1)
    \/ (2 <= n /\ List.length instrs = 2 * n /\ Nat.Even (List.length instrs)).
Proof.
  intros self expression instrs self' H n.
  apply convert_to_rtl_success in H as (_ & Hw & -> & _).
  pose proof (well_formed_operand_count _ Hw) as Hc.
  rewrite (well_formed_emitted_length _ _ Hw). fold n in Hc |- *.
  destruct (Nat.eqb_spec n 1); [left; auto | right].
  repeat split; try lia. exists n. reflexivity.
Qed.

Lemma C3_instruction_count_parity_witness :
  convert_to_rtl init "x = 5"
  = ((["x <- 5"%string], EmptyString), mkRTLConverter 1 ["x <- 5"%string])
  /\ (let n := operand_count (rhs_tokens "x = 5") in
      (n = 1 /\ List.length ["x <- 5"%string] = 1)
      \/ (2 <= n /\ List.length ["x <- 5"%string] = 2 * n
          /\ Nat.Even (List.length ["x <- 5"%string]))).
Proof.
  split; [reflexivity |].
  apply (C3_instruction_count_parity init "x = 5" ["x <- 5"%string]
           (mkRTLConverter 1 ["x <- 5"%string])).
  reflexivity.
Defined.

(** C5. Every call returns exactly one populated output: either no
    instruction and a non-empty error string, or a non-empty instruction
    list and the empty error string.  This also holds when instructions
    were already emitted before the failure was found: on [x = 6 +] the
    converter holds [R1 <- 6] and the call returns no instruction. *)
Theorem C5_exactly_one_output :
  (forall self expression,
     let out := fst (convert_to_rtl self expression) in
     (fst out = [] /\ snd out <> EmptyString)
     \/ (fst out <> [] /\ snd out = EmptyString))
  /\ convert_to_rtl init "x = 6 +" =
     (([], "Error: Missing operand after operator"%string),
      mkRTLConverter 2 ["R1 <- 6"%string]).
Proof.
  split; [| reflexivity].
  intros self expression out. subst out.
  destruct (assignment_ok expression && well_formed (rhs_tokens expression))
    eqn:E.
  - right. apply andb_prop in E as [Ha Hw].
    rewrite (convert_to_rtl_ok self expression Ha Hw). cbv zeta.
    cbn [fst snd]. split; [| reflexivity].
    destruct (rhs_tokens expression) as [| t0 [| op rest]];
      [discriminate | discriminate | discriminate].
  - left. apply convert_to_rtl_error. exact E.
Qed.

(** ** Strings *)

Lemma append_assoc (a b c : string) : ((a ++ b) ++ c = a ++ (b ++ c))%string.
Proof. induction a as [| x a IH]; simpl; [reflexivity | now rewrite IH]. Qed.

Lemma append_empty_r (a : string) : (a ++ "")%string = a.
Proof. induction a as [| x a IH]; simpl; [reflexivity | now rewrite IH]. Qed.

Lemma length_append (a b : string) :
  String.length (a ++ b) = String.length a + String.length b.
Proof. induction a as [| x a IH]; simpl; [reflexivity | now rewrite IH]. Qed.

Lemma filter_append p (a b : string) :
  Str.filter p (a ++ b) = (Str.filter p a ++ Str.filter p b)%string.
Proof.
  induction a as [| x a IH]; simpl; [reflexivity |].
  destruct (p x); simpl; now rewrite IH.
Qed.

Lemma forallb_append p (a b : string) :
  Str.forallb p (a ++ b) = Str.forallb p a && Str.forallb p b.
Proof.
  induction a as [| x a IH]; simpl; [reflexivity |].
  rewrite IH. apply andb_assoc.
Qed.

Lemma existsb_append p (a b : string) :
  Str.existsb p (a ++ b) = Str.existsb p a || Str.existsb p b.
Proof.
  induction a as [| x a IH]; simpl; [reflexivity |].
  rewrite IH. apply orb_assoc.
Qed.

Lemma take_drop_while p (s : string) :
  (Str.take_while p s ++ Str.drop_while p s)%string = s.
Proof.
  induction s as [| c s IH]; simpl; [reflexivity |].
  destruct (p c); simpl; [now rewrite IH | reflexivity].
Qed.

Lemma forallb_take_while p (s : string) :
  Str.forallb p (Str.take_while p s) = true.
Proof.
  induction s as [| c s IH]; simpl; [reflexivity |].
  destruct (p c) eqn:E; simpl; [now rewrite E | reflexivity].
Qed.

Lemma drop_while_length p (s : string) :
  String.length (Str.drop_while p s) <= String.length s.
Proof.
  induction s as [| c s IH]; simpl; [lia |]. destruct (p c); simpl; lia.
Qed.

Lemma take_while_all p (s : string) :
  Str.forallb p s = true -> Str.take_while p s = s.
Proof.
  induction s as [| c s IH]; simpl; [reflexivity |].
  intros H. apply andb_prop in H as [Hc Hs]. rewrite Hc, IH; auto.
Qed.

Lemma drop_while_all p (s : string) :
  Str.forallb p s = true -> Str.drop_while p s = EmptyString.
Proof.
  induction s as [| c s IH]; simpl; [reflexivity |].
  intros H. apply andb_prop in H as [Hc Hs]. rewrite Hc. auto.
Qed.

(** A run in [a] is not prolonged into [b] when [b] starts outside the
    class, or when the run stops inside [a]. *)
Lemma take_while_append p (a b : string) :
  starts_in p b = false \/ Str.forallb p a = false ->
  Str.take_while p (a ++ b) = Str.take_while p a.
Proof.
  induction a as [| x a IH]; simpl; intros H.
  - destruct H as [H | H]; [| discriminate].
    destruct b as [| y b]; simpl in *; [reflexivity | now rewrite H].
  - destruct (p x); simpl in *; [| reflexivity]. now rewrite IH.
Qed.

Lemma drop_while_append p (a b : string) :
  starts_in p b = false \/ Str.forallb p a = false ->
  Str.drop_while p (a ++ b) = (Str.drop_while p a ++ b)%string.
Proof.
  induction a as [| x a IH]; simpl; intros H.
  - destruct H as [H | H]; [| discriminate].
    destruct b as [| y b]; simpl in *; [reflexivity | now rewrite H].
  - destruct (p x); simpl in *; [| reflexivity]. now rewrite IH.
Qed.

Lemma ends_in_all p q (s : string) :
  (forall c, p c = true -> q c = true) ->
  s <> EmptyString -> Str.forallb p s = true -> ends_in q s = true.
Proof.
  intros Hpq. induction s as [| c s IH]; [congruence |].
  intros _ H. simpl in H. apply andb_prop in H as [Hc Hs].
  destruct s as [| d s]; [simpl; auto |].
  change (ends_in q (String c (String d s))) with (ends_in q (String d s)).
  apply IH; [discriminate | exact Hs].
Qed.

Lemma ends_in_cons p c (s : string) :
  s <> EmptyString -> ends_in p (String c s) = ends_in p s.
Proof. destruct s; [congruence | reflexivity]. Qed.

Lemma ends_in_drop_while p q (s : string) :
  Str.drop_while q s <> EmptyString ->
  ends_in p (Str.drop_while q s) = ends_in p s.
Proof.
  induction s as [| c s IH]; simpl; [congruence |].
  destruct (q c) eqn:E; intros H.
  - rewrite IH by assumption. destruct s as [| d s]; [simpl in H; congruence | reflexivity].
  - reflexivity.
Qed.

(** ** The tokenizer *)

(** Induction on a string with the hypothesis for every string that is
    no longer than the tail. *)
Lemma string_run_ind (P : string -> Prop) :
  P EmptyString ->
  (forall c r,
      (forall s, String.length s <= String.length r -> P s) -> P (String c r)) ->
  forall s, P s.
Proof.
  intros H0 Hc s.
  assert (forall n s, String.length s <= n -> P s) as H.
  { induction n as [| n IH]; intros [| c r] Hl; simpl in Hl; auto; try lia.
    apply Hc. intros s' Hs'. apply IH. lia. }
  apply (H (String.length s)). lia.
Qed.

Lemma token_char_false c :
  token_char c = false ->
  Char.isdecimal c = false /\ Char.isword c = false /\ Char.isop c = false.
Proof.
  unfold token_char. intros H. apply orb_false_elim in H as [Hw Ho].
  repeat split; auto.
  destruct (Char.isdecimal c) eqn:E; [| reflexivity].
  apply isdecimal_isword in E. congruence.
Qed.

(** A character outside the token classes separates: the tokens on its
    left and on its right are found independently. *)
Lemma findall_tokens_separator c (a b : string) :
  token_char c = false ->
  findall_tokens (a ++ String c b) = findall_tokens a ++ findall_tokens b.
Proof.
  intros Hc. destruct (token_char_false c Hc) as (Hd & Hw & Ho).
  induction a as [| x r IH] using string_run_ind.
  - simpl. rewrite findall_tokens_equation_2, Hd, Hw, Ho. reflexivity.
  - change (String x r ++ String c b)%string with (String x (r ++ String c b)).
    rewrite !findall_tokens_equation_2.
    destruct (Char.isdecimal x).
    { rewrite take_while_append, drop_while_append by (left; exact Hd).
      rewrite IH by apply drop_while_length. reflexivity. }
    destruct (Char.isword x).
    { rewrite take_while_append, drop_while_append by (left; exact Hw).
      rewrite IH by apply drop_while_length. reflexivity. }
    destruct (Char.isop x); rewrite IH by lia; reflexivity.
Qed.

(** Two strings that do not meet in a run of word characters are tokenized
    independently. *)
Lemma findall_tokens_append (a b : string) :
  ends_in Char.isword a && starts_in Char.isword b = false ->
  findall_tokens (a ++ b) = findall_tokens a ++ findall_tokens b.
Proof.
  induction a as [| x r IH] using string_run_ind; intros H.
  - reflexivity.
  - change (String x r ++ b)%string with (String x (r ++ b)).
    rewrite !findall_tokens_equation_2.
    assert (forall p, (forall c, p c = true -> Char.isword c = true) ->
              p x = true ->
              starts_in p b = false \/ Str.forallb p r = false) as Hrun.
    { intros p Hp Hx. destruct (Str.forallb p r) eqn:Er; [left | now right].
      assert (ends_in Char.isword (String x r) = true) as He.
      { apply (ends_in_all p); auto; [discriminate |]. simpl. now rewrite Hx, Er. }
      rewrite He in H. simpl in H. destruct b as [| y b]; [reflexivity |].
      simpl in *. destruct (p y) eqn:Ey; [| reflexivity].
      apply Hp in Ey. congruence. }
    assert (forall q, ends_in Char.isword (Str.drop_while q r)
                      && starts_in Char.isword b = false) as Hrest.
    { intros q. destruct (Str.drop_while q r) eqn:Ed; [reflexivity |].
      rewrite <- Ed. rewrite ends_in_drop_while by (rewrite Ed; discriminate).
      rewrite <- H. f_equal. symmetry. apply ends_in_cons.
      intros ->. discriminate. }
    assert (ends_in Char.isword r && starts_in Char.isword b = false) as Hr.
    { destruct r as [| y r]; [reflexivity |].
      rewrite <- H. f_equal. }
    destruct (Char.isdecimal x) eqn:Ex.
    { rewrite take_while_append, drop_while_append
        by (apply Hrun; [apply isdecimal_isword | exact Ex]).
      rewrite IH; [reflexivity | apply drop_while_length | apply Hrest]. }
    destruct (Char.isword x) eqn:Ew.
    { rewrite take_while_append, drop_while_append
        by (apply Hrun; [auto | exact Ew]).
      rewrite IH; [reflexivity | apply drop_while_length | apply Hrest]. }
    destruct (Char.isop x); rewrite IH by (auto; lia); reflexivity.
Qed.

(** ** Reading instructions *)

Lemma split_no_sep sep (s : string) :
  Str.contains sep s = false -> Str.split sep s = [s].
Proof.
  unfold Str.contains. induction s as [| c s IH]; [reflexivity |].
  cbn [Str.existsb Str.split].
  intros H. apply orb_false_elim in H as [Hc Hs].
  rewrite (Ascii.eqb_sym c sep), Hc, IH by assumption. reflexivity.
Qed.

Lemma split_at_sep sep (a b : string) :
  Str.contains sep a = false ->
  Str.split sep (a ++ String sep b) = a :: Str.split sep b.
Proof.
  unfold Str.contains. induction a as [| c a IH].
  - intros _. cbn [append Str.split]. rewrite Ascii.eqb_refl. reflexivity.
  - cbn [append Str.existsb Str.split].
    intros H. apply orb_false_elim in H as [Hc Hs].
    rewrite (Ascii.eqb_sym c sep), Hc, IH by assumption. reflexivity.
Qed.

Lemma contains_append sep (a b : string) :
  Str.contains sep (a ++ b) = Str.contains sep a || Str.contains sep b.
Proof. apply existsb_append. Qed.

Lemma forallb_no_space p (s : string) :
  (forall c, p c = true -> Char.eqb_space c = false) ->
  Str.forallb p s = true -> Str.contains " " s = false.
Proof.
  intros Hp. unfold Str.contains. induction s as [| c s IH]; [reflexivity |].
  cbn [Str.existsb Str.forallb].
  intros H. apply andb_prop in H as [Hc Hs].
  rewrite IH by assumption. apply Hp in Hc. unfold Char.eqb_space in Hc.
  rewrite (Ascii.eqb_sym " " c), Hc. reflexivity.
Qed.

(** The destination and the sources of [dest <- srcs]. *)
Lemma instr_dest_render (dest srcs : string) :
  Str.contains " " dest = false ->
  instr_dest (dest ++ " <- " ++ srcs) = dest.
Proof.
  intros H. unfold instr_dest, instr_fields.
  change (dest ++ " <- " ++ srcs)%string
    with (dest ++ String " " ("<- " ++ srcs))%string.
  rewrite split_at_sep by assumption. reflexivity.
Qed.

Lemma instr_srcs_render (dest srcs : string) :
  Str.contains " " dest = false ->
  instr_srcs (dest ++ " <- " ++ srcs) = Str.split " " srcs.
Proof.
  intros H. unfold instr_srcs, instr_fields.
  change (dest ++ " <- " ++ srcs)%string
    with (dest ++ String " " ("<-" ++ String " " srcs))%string.
  rewrite split_at_sep by assumption.
  rewrite split_at_sep by reflexivity. reflexivity.
Qed.

(** ** Register names *)

Lemma string_of_uint_decimal d :
  Str.forallb Char.isdecimal (NilEmpty.string_of_uint d) = true.
Proof. induction d; simpl; auto. Qed.

Lemma of_nat_decimal n : Str.forallb Char.isdecimal (Str.of_nat n) = true.
Proof. apply string_of_uint_decimal. Qed.

Lemma of_nat_inj m n : Str.of_nat m = Str.of_nat n -> m = n.
Proof.
  unfold Str.of_nat. intros H.
  apply (f_equal NilEmpty.uint_of_string) in H.
  rewrite !NilEmpty.usu in H. inversion H as [H'].
  apply (f_equal Nat.of_uint) in H'.
  rewrite !DecimalNat.Unsigned.of_to in H'. exact H'.
Qed.

Lemma of_nat_nonempty n : Str.of_nat n <> EmptyString.
Proof.
  intros H. change EmptyString with (NilEmpty.string_of_uint Decimal.Nil) in H.
  unfold Str.of_nat in H.
  apply (f_equal NilEmpty.uint_of_string) in H.
  rewrite !NilEmpty.usu in H. inversion H as [H'].
  apply (f_equal Nat.of_uint) in H'.
  rewrite DecimalNat.Unsigned.of_to in H'. simpl in H'. subst n. discriminate.
Qed.

Lemma reg_name_inj m n : reg_name m = reg_name n -> m = n.
Proof. unfold reg_name. intros H. inversion H. now apply of_nat_inj. Qed.

Lemma reg_name_is_register n : is_register_name (reg_name n) = true.
Proof.
  unfold reg_name. pose proof (of_nat_decimal n) as Hd.
  pose proof (of_nat_nonempty n) as Hn.
  destruct (Str.of_nat n) as [| d r]; [congruence |].
  simpl in *. exact Hd.
Qed.

Lemma reg_name_no_space n : Str.contains " " (reg_name n) = false.
Proof.
  unfold reg_name. change ("R" ++ Str.of_nat n)%string with (String "R" (Str.of_nat n)).
  unfold Str.contains. simpl.
  apply (forallb_no_space Char.isdecimal);
    [apply isdecimal_not_space | apply of_nat_decimal].
Qed.

(** ** Tokens *)

Lemma findall_tokens_shape :
  forall s t, In t (findall_tokens s) -> token_shape t = true.
Proof.
  induction s as [| c r IH] using string_run_ind; intros t Ht.
  - destruct Ht.
  - rewrite findall_tokens_equation_2 in Ht.
    destruct (Char.isdecimal c) eqn:Ed.
    { destruct Ht as [<- | Ht]; [| eapply IH; [apply drop_while_length | exact Ht]].
      cbn [token_shape]. rewrite Ed, forallb_take_while. reflexivity. }
    destruct (Char.isword c) eqn:Ew.
    { destruct Ht as [<- | Ht]; [| eapply IH; [apply drop_while_length | exact Ht]].
      cbn [token_shape]. rewrite Ed, Ew, forallb_take_while.
      simpl. reflexivity. }
    destruct (Char.isop c) eqn:Eo.
    { destruct Ht as [<- | Ht]; [| eapply IH; [| exact Ht]; lia].
      cbn [token_shape]. rewrite Ed, Ew, Eo. reflexivity. }
    eapply IH; [| exact Ht]. lia.
Qed.

Lemma forallb_impl p q (s : string) :
  (forall c, p c = true -> q c = true) ->
  Str.forallb p s = true -> Str.forallb q s = true.
Proof.
  intros Hpq. induction s as [| c s IH]; [reflexivity |].
  cbn [Str.forallb]. intros H. apply andb_prop in H as [Hc Hs].
  rewrite (Hpq c Hc), IH by assumption. reflexivity.
Qed.

Lemma isword_token_char c : Char.isword c = true -> token_char c = true.
Proof. unfold token_char. intros ->. reflexivity. Qed.

Lemma isdecimal_token_char c : Char.isdecimal c = true -> token_char c = true.
Proof. intros H. apply isword_token_char, isdecimal_isword, H. Qed.

Lemma token_shape_chars t :
  token_shape t = true -> Str.forallb token_char t = true.
Proof.
  destruct t as [| c w]; [discriminate |]. cbn [token_shape Str.forallb].
  intros H. apply orb_prop in H as [H | H]; [apply orb_prop in H as [H | H] |].
  - apply andb_prop in H as [Hc Hw].
    rewrite (isdecimal_token_char c Hc).
    rewrite (forallb_impl _ _ w isdecimal_token_char Hw). reflexivity.
  - apply andb_prop in H as [Hc Hw]. apply andb_prop in Hc as [Hc _].
    rewrite (isword_token_char c Hc).
    rewrite (forallb_impl _ _ w isword_token_char Hw). reflexivity.
  - apply andb_prop in H as [Hc Hw]. apply String.eqb_eq in Hw. subst w.
    unfold token_char. rewrite Hc, orb_true_r. reflexivity.
Qed.

Lemma token_shape_no_space t :
  token_shape t = true -> Str.contains " " t = false.
Proof.
  intros H. apply (forallb_no_space token_char);
    [apply token_not_space | apply token_shape_chars, H].
Qed.

Lemma parse_expression_shape s t :
  In t (parse_expression s) -> token_shape t = true.
Proof. apply findall_tokens_shape. Qed.

Lemma is_operator_cases op :
  is_operator op = true ->
  op = "+"%string \/ op = "-"%string \/ op = "*"%string \/ op = "/"%string.
Proof.
  unfold is_operator. intros H.
  repeat (apply orb_prop in H as [H | H]); apply String.eqb_eq in H; auto.
Qed.

(** An operand never reads as a register name: a number does not start
    with [R], and an alphabetic word has no digit. *)
Lemma accepts_operand_not_register t :
  accepts_operand t = true -> is_register_name t = false.
Proof.
  intros H. destruct (is_register_name t) eqn:E; [| reflexivity].
  destruct t as [| c [| d r]]; try discriminate.
  cbn [is_register_name] in E. apply andb_prop in E as [Ec Ed].
  apply Ascii.eqb_eq in Ec. subst c.
  cbn [Str.forallb] in Ed. apply andb_prop in Ed as [Ed _].
  unfold accepts_operand in H. apply orb_prop in H as [H | H].
  - discriminate H.
  - unfold Str.isalpha in H. cbn [Str.forallb] in H.
    apply andb_prop in H as [_ H]. apply andb_prop in H as [H _].
    apply isalpha_not_decimal in H. congruence.
Qed.

(** ** The variable and the shape of the returned list *)

Lemma match_identifier_no_space v :
  match_identifier v = true -> Str.contains " " v = false.
Proof.
  destruct v as [| c r]; [discriminate |]. cbn [match_identifier].
  intros H. apply andb_prop in H as [Hc Hr].
  rewrite <- (take_drop_while Char.ident_part r).
  unfold Str.contains. cbn [Str.existsb]. rewrite existsb_append.
  apply ident_start_part, ident_part_not_space in Hc.
  unfold Char.eqb_space in Hc. rewrite (Ascii.eqb_sym " " c), Hc.
  pose proof (forallb_no_space Char.ident_part _ ident_part_not_space
                (forallb_take_while Char.ident_part r)) as Ht.
  unfold Str.contains in Ht. rewrite Ht.
  destruct (Str.drop_while Char.ident_part r) as [| d [| d' r']];
    try discriminate; [reflexivity |].
  apply Ascii.eqb_eq in Hr. subst d. reflexivity.
Qed.

Lemma assignment_ok_no_space expression :
  assignment_ok expression = true ->
  Str.contains " " (lhs_variable expression) = false.
Proof.
  unfold assignment_ok. intros H. apply andb_prop in H as [_ H].
  apply match_identifier_no_space, H.
Qed.

Lemma emitted_last variable tokens :
  tokens <> [] ->
  exists src, last (emitted variable tokens) EmptyString
              = (variable ++ " <- " ++ src)%string.
Proof.
  destruct tokens as [| t0 [| op rest]]; [congruence | |]; intros _.
  - exists t0. reflexivity.
  - exists (last_register 2 (reg_name 1) (op :: rest)).
    unfold emitted.
    change (?a :: ?l ++ [?x]) with ((a :: l) ++ [x]).
    apply last_last.
Qed.

(** C7. For every input that translates successfully, the destination of
    the last returned instruction is the declared left-hand-side variable:
    the stripped text before the [=]. *)
Theorem C7_last_destination :
  forall self expression instrs self',
    convert_to_rtl self expression = ((instrs, EmptyString), self') ->
    instr_dest (last instrs EmptyString) = lhs_variable expression.
Proof.
  intros self expression instrs self' H.
  apply convert_to_rtl_success in H as (Ha & Hw & -> & _).
  destruct (emitted_last (lhs_variable expression) (rhs_tokens expression))
    as [src ->].
  - intros E. rewrite E in Hw. discriminate.
  - apply instr_dest_render, assignment_ok_no_space, Ha.
Qed.

Lemma C7_last_destination_witness :
  convert_to_rtl init "result = a + b - 3"
  = ((fst (fst (convert_to_rtl init "result = a + b - 3")), EmptyString),
     snd (convert_to_rtl init "result = a + b - 3"))
  /\ instr_dest (last (fst (fst (convert_to_rtl init "result = a + b - 3")))
                   EmptyString)
     = lhs_variable "result = a + b - 3".
Proof.
  split; [reflexivity |].
  apply (C7_last_destination init "result = a + b - 3" _
           (snd (convert_to_rtl init "result = a + b - 3"))).
  reflexivity.
Defined.

(** ** Registers are written before they are read *)

Lemma well_scoped_nth instrs :
  forall D k ins w,
    well_scoped D instrs ->
    nth_error instrs k = Some ins ->
    In w (instr_srcs ins) -> is_register_name w = true ->
    In w D
    \/ exists j ins', j < k /\ nth_error instrs j = Some ins'
                      /\ instr_dest ins' = w.
Proof.
  induction instrs as [| i0 rest IH]; intros D k ins w H Hk Hw Hr.
  - destruct k; discriminate.
  - destruct H as [H1 H2]. destruct k as [| k].
    + inversion Hk; subst. left. apply H1; assumption.
    + simpl in Hk.
      destruct (IH _ _ _ _ H2 Hk Hw Hr) as [[<- | Hin] | (j & ins' & Hj & Hn & Hd)].
      * right. exists 0, i0. repeat split. lia.
      * left. exact Hin.
      * right. exists (S j), ins'. repeat split; [lia | exact Hn | exact Hd].
Qed.

Lemma is_operator_no_space op :
  is_operator op = true -> Str.contains " " op = false.
Proof.
  intros H. destruct (is_operator_cases op H) as [-> | [-> | [-> | ->]]];
    reflexivity.
Qed.

Lemma is_operator_not_register op :
  is_operator op = true -> is_register_name op = false.
Proof.
  intros H. destruct (is_operator_cases op H) as [-> | [-> | [-> | ->]]];
    reflexivity.
Qed.

Lemma instr_srcs_load dest src :
  Str.contains " " dest = false -> Str.contains " " src = false ->
  instr_srcs (dest ++ " <- " ++ src) = [src].
Proof.
  intros Hd Hs. rewrite instr_srcs_render by assumption.
  apply split_no_sep, Hs.
Qed.

Lemma instr_srcs_binary dest a op b :
  Str.contains " " dest = false -> Str.contains " " a = false ->
  Str.contains " " op = false -> Str.contains " " b = false ->
  instr_srcs (dest ++ " <- " ++ a ++ " " ++ op ++ " " ++ b) = [a; op; b].
Proof.
  intros Hd Ha Ho Hb. rewrite instr_srcs_render by assumption.
  change (a ++ " " ++ op ++ " " ++ b)%string
    with (a ++ String " " (op ++ String " " b))%string.
  rewrite split_at_sep by assumption. rewrite split_at_sep by assumption.
  rewrite split_no_sep by assumption. reflexivity.
Qed.

Lemma chain_well_scoped rest :
  forall c acc D tail,
    alternates rest = true ->
    (forall t, In t rest -> Str.contains " " t = false) ->
    Str.contains " " acc = false -> In acc D ->
    (forall D', (forall w, In w D -> In w D') ->
                In (last_register c acc rest) D' -> well_scoped D' tail) ->
    well_scoped D (chain c acc rest ++ tail).
Proof.
  induction rest as [rest IH] using (well_founded_induction
    (wf_inverse_image _ nat _ (@List.length string) lt_wf)).
  intros c acc D tail Halt Hsp Hacc Hin Htail.
  destruct rest as [| op [| t rest2]]; try discriminate.
  - simpl. apply Htail; auto.
  - cbn [alternates] in Halt.
    apply andb_prop in Halt as [Halt H2]. apply andb_prop in Halt as [Hop Ht].
    assert (Str.contains " " t = false) as Hts by (apply Hsp; simpl; auto).
    cbn [chain app well_scoped]. split; [| split].
    + rewrite instr_srcs_load by (auto using reg_name_no_space).
      intros w [<- | []] Hr.
      rewrite (accepts_operand_not_register t Ht) in Hr. discriminate.
    + rewrite instr_dest_render by apply reg_name_no_space.
      rewrite instr_srcs_binary
        by (auto using reg_name_no_space, is_operator_no_space).
      intros w [<- | [<- | [<- | []]]] Hr.
      * right. exact Hin.
      * rewrite (is_operator_not_register op Hop) in Hr. discriminate.
      * left. reflexivity.
    + rewrite !instr_dest_render by apply reg_name_no_space.
      apply IH.
      * simpl. lia.
      * exact H2.
      * intros x Hx. apply Hsp. simpl. auto.
      * apply reg_name_no_space.
      * left. reflexivity.
      * intros D' Hsub Hlast. apply Htail.
        -- intros w Hw. apply Hsub. right. right. exact Hw.
        -- replace (last_register c acc (op :: t :: rest2))
             with (last_register (c + 2) (reg_name (c + 1)) rest2); [exact Hlast |].
           unfold last_register. destruct rest2 as [| y rest3]; simpl; f_equal; lia.
Qed.

Lemma last_register_no_space c acc rest :
  Str.contains " " acc = false ->
  Str.contains " " (last_register c acc rest) = false.
Proof.
  intros H. destruct rest; [exact H | apply reg_name_no_space].
Qed.

Lemma emitted_well_scoped variable tokens :
  Str.contains " " variable = false ->
  well_formed tokens = true ->
  (forall t, In t tokens -> Str.contains " " t = false) ->
  well_scoped [] (emitted variable tokens).
Proof.
  intros Hv Hw Hsp. destruct tokens as [| t0 rest]; [discriminate |].
  cbn [well_formed] in Hw. apply andb_prop in Hw as [H0 Hr].
  assert (Str.contains " " t0 = false) as H0s by (apply Hsp; simpl; auto).
  assert (forall src D, Str.contains " " src = false ->
            (is_register_name src = true -> In src D) ->
            well_scoped D [(variable ++ " <- " ++ src)%string]) as Hfinal.
  { intros src D Hs Hin. split; [| exact I].
    rewrite instr_srcs_load by assumption.
    intros w [<- | []] Hreg. auto. }
  destruct rest as [| op rest].
  - apply Hfinal; [exact H0s |].
    intros Hreg. rewrite (accepts_operand_not_register t0 H0) in Hreg.
    discriminate.
  - unfold emitted. cbn [well_scoped]. split.
    + rewrite instr_srcs_load by (auto using reg_name_no_space).
      intros w [<- | []] Hreg.
      rewrite (accepts_operand_not_register t0 H0) in Hreg. discriminate.
    + rewrite instr_dest_render by apply reg_name_no_space.
      apply chain_well_scoped.
      * exact Hr.
      * intros t Ht. apply Hsp. right. exact Ht.
      * apply reg_name_no_space.
      * left. reflexivity.
      * intros D' _ Hlast. apply Hfinal; [| auto].
        apply last_register_no_space, reg_name_no_space.
Qed.

(** C10. For every input that translates successfully, every register name
    among the sources of a returned instruction is the destination of an
    instruction strictly earlier in the list: no register is read before
    it has been written. *)
Theorem C10_registers_written_before_read :
  forall self expression instrs self',
    convert_to_rtl self expression = ((instrs, EmptyString), self') ->
    forall k instruction w,
      nth_error instrs k = Some instruction ->
      In w (instr_srcs instruction) ->
      is_register_name w = true ->
      exists j earlier,
        j < k /\ nth_error instrs j = Some earlier /\ instr_dest earlier = w.
Proof.
  intros self expression instrs self' H k instruction w Hk Hw Hreg.
  apply convert_to_rtl_success in H as (Ha & Hwf & -> & _).
  assert (well_scoped [] (emitted (lhs_variable expression)
                            (rhs_tokens expression))) as Hs.
  { apply emitted_well_scoped; [apply assignment_ok_no_space, Ha | exact Hwf |].
    intros t Ht. apply token_shape_no_space.
    apply (parse_expression_shape _ _ Ht). }
  destruct (well_scoped_nth _ _ _ _ _ Hs Hk Hw Hreg) as [[] | Hex].
  exact Hex.
Qed.

Lemma C10_registers_written_before_read_witness :
  exists j earlier,
    j < 2
    /\ nth_error (fst (fst (convert_to_rtl init "x = 6 + 9"))) j = Some earlier
    /\ instr_dest earlier = "R2"%string.
Proof.
  apply (C10_registers_written_before_read init "x = 6 + 9" _
           (snd (convert_to_rtl init "x = 6 + 9")) eq_refl
           2 "R3 <- R1 + R2"%string "R2"%string).
  - reflexivity.
  - simpl. auto.
  - reflexivity.
Defined.

(** ** Register numbering *)

Lemma allocate_names k :
  forall self,
    allocate k self =
    (map reg_name (seq (register_counter self) k),
     mkRTLConverter (register_counter self + k) (rtl_instructions self)).
Proof.
  induction k as [| k IH]; intros [c b].
  - simpl. rewrite Nat.add_0_r. reflexivity.
  - cbn [allocate get_next_register register_counter rtl_instructions].
    rewrite IH. cbn [register_counter rtl_instructions seq map].
    replace (c + 1) with (S c) by lia.
    replace (c + S k) with (S c + k) by lia. reflexivity.
Qed.

Lemma reg_names_NoDup c k : NoDup (map reg_name (seq c k)).
Proof.
  revert c. induction k as [| k IH]; intros c; [constructor |].
  cbn [seq map]. constructor; [| apply IH].
  intros Hin. apply in_map_iff in Hin as (n & Hn & Hs).
  apply reg_name_inj in Hn. subst n. apply in_seq in Hs. lia.
Qed.

(** Whatever the loop does, the instructions it appends have the registers
    allocated meanwhile as destinations, in order. *)
Lemma pairs_loop_state rest i acc self :
  exists new,
    rtl_instructions (loop_state (pairs_loop rest i acc self))
    = rtl_instructions self ++ new
    /\ register_counter (loop_state (pairs_loop rest i acc self))
       = register_counter self + List.length new
    /\ map instr_dest new
       = map reg_name (seq (register_counter self) (List.length new)).
Proof.
  functional induction (pairs_loop rest i acc self);
    try solve [exists []; cbn [loop_state List.length map seq];
               rewrite app_nil_r, Nat.add_0_r; auto].
  destruct IHl as (new & Hb & Hc & Hd).
  cbn [register_counter rtl_instructions] in *.
  exists ((reg_name (register_counter self) ++ " <- " ++ next_operand)%string
          :: (reg_name (register_counter self + 1) ++ " <- " ++ show_register acc
                ++ " " ++ operator ++ " " ++ reg_name (register_counter self))%string
          :: new).
  rewrite Hb, Hc. split; [| split].
  - rewrite <- app_assoc. reflexivity.
  - simpl. lia.
  - cbn [map List.length seq].
    rewrite !instr_dest_render by apply reg_name_no_space.
    rewrite Hd. repeat f_equal; lia.
Qed.

(** The converter after a call: the instructions whose destinations are
    the registers allocated, in order, then at most the final assignment
    to the variable. *)
Lemma convert_to_rtl_state self expression :
  exists regs tail,
    rtl_instructions (snd (convert_to_rtl self expression)) = regs ++ tail
    /\ register_counter (snd (convert_to_rtl self expression))
       = 1 + List.length regs
    /\ map instr_dest regs = map reg_name (seq 1 (List.length regs))
    /\ List.length tail <= 1.
Proof.
  assert (exists regs tail : list string,
            @nil string = regs ++ tail /\ 1 = 1 + List.length regs
            /\ map instr_dest regs = map reg_name (seq 1 (List.length regs))
            /\ List.length tail <= 1) as Hinit.
  { exists [], []. simpl. auto. }
  unfold convert_to_rtl.
  destruct (negb (Str.contains "=" expression)); [exact Hinit |].
  destruct (negb (List.length (Str.split "=" expression) =? 2)); [exact Hinit |].
  fold (lhs_variable expression).
  destruct (negb (match_identifier (lhs_variable expression))); [exact Hinit |].
  fold (rhs_tokens expression).
  destruct (rhs_tokens expression) as [| t0 [| op rest]]; [exact Hinit | |].
  - cbn [List.length Nat.eqb item nth].
    destruct (is_number t0 || Str.isalpha t0); [| exact Hinit].
    exists [], [(lhs_variable expression ++ " <- " ++ t0)%string].
    simpl. auto.
  - cbn [List.length Nat.eqb]. rewrite while_loop_run.
    destruct (accepts_operand t0); [| exact Hinit].
    match goal with
    | |- context [pairs_loop ?r ?i ?a ?s] =>
        destruct (pairs_loop_state r i a s) as (new & Hb & Hc & Hd);
        destruct (pairs_loop r i a s) as [out s' | cur s']
    end;
      cbn [loop_state register_counter rtl_instructions reset app] in Hb, Hc, Hd;
      cbn [reset register_counter rtl_instructions].
    + exists ((reg_name 1 ++ " <- " ++ t0)%string :: new), [].
      cbn [snd]. rewrite Hb, Hc, app_nil_r. repeat split; auto.
      cbn [List.length map seq].
      rewrite instr_dest_render by apply reg_name_no_space.
      rewrite Hd. reflexivity.
    + destruct (truthy cur).
      * exists ((reg_name 1 ++ " <- " ++ t0)%string :: new),
          [(lhs_variable expression ++ " <- " ++ show_register cur)%string].
        cbn [snd append_instruction register_counter rtl_instructions].
        rewrite Hb, Hc. repeat split; auto.
        cbn [List.length map seq].
        rewrite instr_dest_render by apply reg_name_no_space.
        rewrite Hd. reflexivity.
      * exists ((reg_name 1 ++ " <- " ++ t0)%string :: new), [].
        cbn [snd]. rewrite Hb, Hc, app_nil_r. repeat split; auto.
        cbn [List.length map seq].
        rewrite instr_dest_render by apply reg_name_no_space.
        rewrite Hd. reflexivity.
Qed.

(** A call that fails leaves in the converter the register instructions
    emitted so far and nothing else. *)
Lemma convert_to_rtl_error_state self expression :
  assignment_ok expression && well_formed (rhs_tokens expression) = false ->
  register_counter (snd (convert_to_rtl self expression))
  = 1 + List.length (rtl_instructions (snd (convert_to_rtl self expression)))
  /\ map instr_dest (rtl_instructions (snd (convert_to_rtl self expression)))
     = map reg_name
         (seq 1 (List.length
                   (rtl_instructions (snd (convert_to_rtl self expression))))).
Proof.
  unfold assignment_ok, convert_to_rtl. intros H.
  destruct (Str.contains "=" expression); cbn [negb andb] in *;
    [| split; reflexivity].
  destruct (List.length (Str.split "=" expression) =? 2); cbn [negb andb] in *;
    [| split; reflexivity].
  fold (lhs_variable expression).
  destruct (match_identifier (lhs_variable expression)); cbn [negb andb] in *;
    [| split; reflexivity].
  fold (rhs_tokens expression).
  destruct (rhs_tokens expression) as [| t0 [| op rest]] eqn:Et.
  - split; reflexivity.
  - cbn [List.length Nat.eqb item nth]. simpl in H. rewrite andb_true_r in H.
    unfold accepts_operand in H. rewrite H. split; reflexivity.
  - cbn [List.length Nat.eqb]. rewrite while_loop_run.
    cbn [well_formed] in H.
    destruct (accepts_operand t0); cbn [andb] in H; [| split; reflexivity].
    match goal with
    | |- context [pairs_loop ?r ?i ?a ?s] =>
        destruct (pairs_loop_state r i a s) as (new & Hb & Hc & Hd);
        destruct (pairs_loop r i a s) as [out s' | cur s'] eqn:Ep
    end.
    + cbn [loop_state register_counter rtl_instructions reset app] in Hb, Hc, Hd.
      cbn [snd]. rewrite Hb, Hc. cbn [List.length map seq]. split; [lia |].
      rewrite instr_dest_render by apply reg_name_no_space.
      rewrite Hd. reflexivity.
    + apply pairs_loop_finished in Ep. congruence.
Qed.

Lemma emitted_last_dest variable tokens :
  tokens <> [] -> Str.contains " " variable = false ->
  instr_dest (last (emitted variable tokens) EmptyString) = variable.
Proof.
  intros Hne Hv. destruct tokens as [| t0 [| op rest]]; [congruence | |].
  - cbn [emitted last]. apply instr_dest_render, Hv.
  - unfold emitted.
    change (?a :: ?l ++ [?x]) with ((a :: l) ++ [x]).
    rewrite last_last. apply instr_dest_render, Hv.
Qed.

(** C6. After a reset, successive calls of [get_next_register] hand out
    [R1], [R2], [R3], ...: numbers from 1 upwards, each name once.  Within
    a translation every register allocated at once becomes the destination
    of the instruction appended next, and nothing else is appended but the
    final store of a success.  So the registers of one translation are read
    off the converter afterwards: with the counter ending at [k + 1], the
    first [k] instructions have the destinations [R1] to [Rk], in this
    order and each once; a failed call left exactly these [k] instructions;
    a successful call returned them followed by the store into the
    variable, and [k] is the number of tokens of the right-hand side (none
    for a single token).  The counter is reset when a call starts: a call
    on a used converter gives what a call on a new one gives. *)
Theorem C6_register_numbering :
  (forall k self,
      fst (allocate k (reset self)) = map reg_name (seq 1 k))
  /\ (forall k, NoDup (map reg_name (seq 1 k)))
  /\ (forall self expression,
        let result := fst (convert_to_rtl self expression) in
        let after := snd (convert_to_rtl self expression) in
        let k := register_counter after - 1 in
        register_counter after = k + 1
        /\ map instr_dest (firstn k (rtl_instructions after))
           = map reg_name (seq 1 k)
        /\ NoDup (map instr_dest (firstn k (rtl_instructions after)))
        /\ (snd result <> EmptyString ->
            List.length (rtl_instructions after) = k)
        /\ (snd result = EmptyString ->
            rtl_instructions after = fst result
            /\ List.length (fst result) = k + 1
            /\ instr_dest (last (fst result) EmptyString)
               = lhs_variable expression
            /\ k = if List.length (rhs_tokens expression) =? 1 then 0
                   else List.length (rhs_tokens expression)))
  /\ (forall self earlier expression,
        convert_to_rtl (snd (convert_to_rtl self earlier)) expression
        = convert_to_rtl init expression).
Proof.
  split; [| split; [| split]].
  - intros k self. rewrite allocate_names. reflexivity.
  - intros k. apply reg_names_NoDup.
  - intros self expression result after k. subst result after k.
    destruct (convert_to_rtl_state self expression)
      as (regs & tail & Hb & Hc & Hd & Htl).
    assert (map instr_dest
              (firstn (register_counter (snd (convert_to_rtl self expression)) - 1)
                 (rtl_instructions (snd (convert_to_rtl self expression))))
            = map reg_name
                (seq 1 (register_counter
                          (snd (convert_to_rtl self expression)) - 1))) as Hm.
    { rewrite Hb, Hc.
      replace (1 + List.length regs - 1) with (List.length regs) by lia.
      rewrite firstn_app, Nat.sub_diag, firstn_all, firstn_O, app_nil_r.
      exact Hd. }
    split; [rewrite Hc; lia | split; [exact Hm | split; [| split]]].
    + rewrite Hm. apply reg_names_NoDup.
    + intros Herr.
      destruct (assignment_ok expression
                && well_formed (rhs_tokens expression)) eqn:E.
      * apply andb_prop in E as [Ha Hw].
        rewrite (convert_to_rtl_ok self expression Ha Hw) in Herr.
        cbn [fst snd] in Herr. congruence.
      * destruct (convert_to_rtl_error_state self expression E) as [He _].
        lia.
    + intros Hok.
      destruct (assignment_ok expression
                && well_formed (rhs_tokens expression)) eqn:E.
      * apply andb_prop in E as [Ha Hw].
        rewrite (convert_to_rtl_ok self expression Ha Hw). cbv zeta.
        cbn [fst snd rtl_instructions register_counter].
        destruct (rhs_tokens expression) as [| t0 rest] eqn:Et;
          [discriminate |].
        cbn [well_formed] in Hw. apply andb_prop in Hw as [_ Halt].
        pose proof (emitted_length (lhs_variable expression) t0 rest Halt)
          as Hlen.
        split; [reflexivity | split; [| split]].
        -- rewrite Hlen. destruct rest; simpl; lia.
        -- apply emitted_last_dest; [discriminate |].
           apply assignment_ok_no_space, Ha.
        -- rewrite Hlen. destruct rest as [| op rest]; [reflexivity |].
           cbn [List.length Nat.eqb]. lia.
      * destruct (convert_to_rtl_error self expression E) as [_ Hne].
        congruence.
  - intros self earlier expression. reflexivity.
Qed.

Lemma C6_register_numbering_witness :
  map instr_dest (firstn 3 ["R1 <- 6"; "R2 <- 9"; "R3 <- R1 + R2"; "x <- R3"]%string)
  = map reg_name (seq 1 3)
  /\ List.length (rtl_instructions (snd (convert_to_rtl init "x = 6 +"))) = 1
  /\ (register_counter (snd (convert_to_rtl init "x = 6 + 9")) - 1
      = if List.length (rhs_tokens "x = 6 + 9") =? 1 then 0
        else List.length (rhs_tokens "x = 6 + 9")).
Proof.
  destruct C6_register_numbering as (_ & _ & H & _).
  destruct (H init "x = 6 + 9"%string) as (_ & H1 & _ & _ & H2).
  destruct (H init "x = 6 +"%string) as (_ & _ & _ & H3 & _).
  split; [exact H1 | split].
  - apply H3. discriminate.
  - apply H2. reflexivity.
Defined.

(** ** Tokens with an underscore *)

Lemma isdecimal_not_underscore :
  forall c, Char.isdecimal c = true -> Ascii.eqb "_" c = false.
Proof. char_fact. Qed.

Lemma isalpha_not_underscore :
  forall c, Char.isalpha c = true -> Ascii.eqb "_" c = false.
Proof. char_fact. Qed.

Lemma isop_not_underscore :
  forall c, Char.isop c = true -> Ascii.eqb "_" c = false.
Proof. char_fact. Qed.

Lemma isword_not_int_space :
  forall c, Char.isword c = true -> Char.int_space c = false.
Proof. char_fact. Qed.

Lemma isword_not_sign :
  forall c, Char.isword c = true -> Ascii.eqb c "+" || Ascii.eqb c "-" = false.
Proof. char_fact. Qed.

Lemma forallb_existsb_false p q (s : string) :
  (forall c, p c = true -> q c = false) ->
  Str.forallb p s = true -> Str.existsb q s = false.
Proof.
  intros Hpq. induction s as [| c s IH]; [reflexivity |].
  cbn [Str.forallb Str.existsb]. intros H. apply andb_prop in H as [Hc Hs].
  rewrite (Hpq c Hc), IH by assumption. reflexivity.
Qed.

(** A word token that does not start with a digit is no number. *)
Lemma word_token_not_number c w :
  Char.isword c = true -> Char.isdecimal c = false ->
  is_number (String c w) = false.
Proof.
  intros Hw Hd. unfold is_number, int_syntax. cbn [Str.drop_while].
  rewrite (isword_not_int_space c Hw), (isword_not_sign c Hw).
  cbn [int_digits]. rewrite Hd. reflexivity.
Qed.

Lemma underscore_token_not_operand t :
  token_shape t = true -> Str.contains "_" t = true ->
  accepts_operand t = false.
Proof.
  destruct t as [| c w]; [discriminate |]. cbn [token_shape].
  intros H Hu. unfold Str.contains in Hu.
  apply orb_prop in H as [H | H]; [apply orb_prop in H as [H | H] |].
  - apply andb_prop in H as [Hc Hw].
    rewrite (forallb_existsb_false Char.isdecimal (Ascii.eqb "_") (String c w))
      in Hu; [discriminate | apply isdecimal_not_underscore |].
    cbn [Str.forallb]. now rewrite Hc, Hw.
  - apply andb_prop in H as [Hc Hw]. apply andb_prop in Hc as [Hc Hd].
    apply negb_true_iff in Hd.
    unfold accepts_operand. rewrite word_token_not_number by assumption.
    cbn [orb]. unfold Str.isalpha.
    destruct (Str.forallb Char.isalpha (String c w)) eqn:Ea; [| reflexivity].
    rewrite (forallb_existsb_false Char.isalpha (Ascii.eqb "_") (String c w))
      in Hu; [discriminate | apply isalpha_not_underscore | exact Ea].
  - apply andb_prop in H as [Hc Hw]. apply String.eqb_eq in Hw. subst w.
    cbn [Str.existsb] in Hu. rewrite (isop_not_underscore c Hc) in Hu.
    discriminate.
Qed.

Lemma is_operator_no_underscore op :
  is_operator op = true -> Str.contains "_" op = false.
Proof.
  intros H. destruct (is_operator_cases op H) as [-> | [-> | [-> | ->]]];
    reflexivity.
Qed.

(** ** The first token that does not fit *)

(** The loop stops at the first operand position that holds no operand. *)
Lemma pairs_loop_bad_operand k :
  forall rest i acc self,
    2 * k + 1 < List.length rest ->
    (forall m, m < 2 * k + 1 ->
       (if Nat.even m then is_operator (item rest m)
        else accepts_operand (item rest m)) = true) ->
    accepts_operand (item rest (2 * k + 1)) = false ->
    exists self',
      pairs_loop rest i acc self =
      Returned ([], ("Error: Expected number or variable at position "
                     ++ Str.of_nat (i + (2 * k + 1)))%string) self'.
Proof.
  induction k as [| k IH]; intros rest i acc self Hlen Hok Hbad.
  - destruct rest as [| op [| t rest2]]; simpl in Hlen; try lia.
    pose proof (Hok 0 ltac:(lia)) as Hop. cbn in Hop.
    cbn in Hbad. cbn [pairs_loop]. rewrite Hop, Hbad. cbn [negb].
    eexists. reflexivity.
  - destruct rest as [| op [| t rest2]]; simpl in Hlen; try lia.
    pose proof (Hok 0 ltac:(lia)) as Hop. cbn in Hop.
    pose proof (Hok 1 ltac:(lia)) as Ht. cbn in Ht.
    cbn [pairs_loop]. rewrite Hop, Ht. cbn [negb].
    replace (2 * S k + 1) with (S (S (2 * k + 1))) in * by lia.
    destruct (IH rest2 (i + 2) (Some (reg_name (register_counter self + 1)))
                (mkRTLConverter (register_counter self + 2)
                   (rtl_instructions self
                      ++ [(reg_name (register_counter self) ++ " <- " ++ t)%string;
                          (reg_name (register_counter self + 1) ++ " <- "
                             ++ show_register acc ++ " " ++ op ++ " "
                             ++ reg_name (register_counter self))%string])))
      as [self' Hs].
    + lia.
    + intros m Hm. specialize (Hok (S (S m)) ltac:(lia)). exact Hok.
    + exact Hbad.
    + exists self'. rewrite Hs.
      replace (i + 2 + (2 * k + 1)) with (i + S (S (2 * k + 1))) by lia.
      reflexivity.
Qed.

(** [convert_to_rtl] on two or more tokens. *)
Lemma convert_to_rtl_loop self expression t0 t1 rest :
  assignment_ok expression = true ->
  rhs_tokens expression = t0 :: t1 :: rest ->
  fst (convert_to_rtl self expression) =
  if accepts_operand t0 then
    match pairs_loop (t1 :: rest) 1 (Some (reg_name 1))
            (mkRTLConverter 2 [(reg_name 1 ++ " <- " ++ t0)%string]) with
    | Returned out _ => out
    | Finished current_register self' =>
        (rtl_instructions
           (if truthy current_register then
              append_instruction self'
                (lhs_variable expression ++ " <- "
                   ++ show_register current_register)
            else self'), EmptyString)
    end
  else ([], ("Error: Expected number or variable at position "
             ++ Str.of_nat 0)%string).
Proof.
  unfold assignment_ok, convert_to_rtl. intros Ha Et.
  apply andb_prop in Ha as [Ha Hid]. apply andb_prop in Ha as [Hc Hl].
  rewrite Hc, Hl. cbn [negb].
  fold (lhs_variable expression). rewrite Hid. cbn [negb].
  fold (rhs_tokens expression). rewrite Et.
  cbn [List.length Nat.eqb]. rewrite while_loop_run.
  destruct (accepts_operand t0); [| reflexivity].
  cbn [reset register_counter rtl_instructions app Nat.add].
  destruct (pairs_loop (t1 :: rest) 1 _ _); reflexivity.
Qed.

Lemma convert_to_rtl_single self expression t :
  assignment_ok expression = true ->
  rhs_tokens expression = [t] ->
  fst (convert_to_rtl self expression) =
  if accepts_operand t then
    ([(lhs_variable expression ++ " <- " ++ t)%string], EmptyString)
  else ([], "Error: Invalid single token"%string).
Proof.
  unfold assignment_ok, convert_to_rtl. intros Ha Et.
  apply andb_prop in Ha as [Ha Hid]. apply andb_prop in Ha as [Hc Hl].
  rewrite Hc, Hl. cbn [negb].
  fold (lhs_variable expression). rewrite Hid. cbn [negb].
  fold (rhs_tokens expression). rewrite Et.
  cbn [List.length Nat.eqb item nth]. fold (accepts_operand t).
  destruct (accepts_operand t); reflexivity.
Qed.

Lemma well_formed_tokens tokens t :
  well_formed tokens = true -> In t tokens ->
  accepts_operand t = true \/ is_operator t = true.
Proof.
  destruct tokens as [| t0 rest]; [discriminate |]. cbn [well_formed].
  intros H. apply andb_prop in H as [H0 Hr]. intros [<- | Hin]; [auto |].
  revert Hr t Hin.
  induction rest as [rest IH] using (well_founded_induction
    (wf_inverse_image _ nat _ (@List.length string) lt_wf)).
  intros Hr t Hin. destruct rest as [| op [| t1 rest2]]; try discriminate.
  - destruct Hin.
  - cbn [alternates] in Hr.
    apply andb_prop in Hr as [Hr H2]. apply andb_prop in Hr as [Hop Ht].
    destruct Hin as [<- | [<- | Hin]]; auto.
    apply (IH rest2); simpl; auto.
Qed.

(** C9. A token with an underscore is never accepted as an operand.  Alone
    on the right-hand side it gives the invalid-single-token error; at an
    operand position (an even index) of a longer token list, reached
    because the tokens before it fit, it gives the
    expected-number-or-variable error for that position; and no expression
    with such a token translates successfully. *)
Theorem C9_underscore_token_rejected :
  (forall s t,
      In t (parse_expression s) -> Str.contains "_" t = true ->
      accepts_operand t = false)
  /\ (forall self expression t,
        assignment_ok expression = true ->
        rhs_tokens expression = [t] -> Str.contains "_" t = true ->
        fst (convert_to_rtl self expression)
        = ([], "Error: Invalid single token"%string))
  /\ (forall self expression i,
        assignment_ok expression = true ->
        2 <= List.length (rhs_tokens expression) ->
        i < List.length (rhs_tokens expression) ->
        Nat.even i = true ->
        Str.contains "_" (item (rhs_tokens expression) i) = true ->
        (forall j, j < i -> token_ok_at (rhs_tokens expression) j = true) ->
        fst (convert_to_rtl self expression)
        = ([], ("Error: Expected number or variable at position "
                ++ Str.of_nat i)%string))
  /\ (forall self expression t,
        In t (rhs_tokens expression) -> Str.contains "_" t = true ->
        fst (fst (convert_to_rtl self expression)) = []
        /\ snd (fst (convert_to_rtl self expression)) <> EmptyString).
Proof.
  assert (forall s t, In t (parse_expression s) -> Str.contains "_" t = true ->
                      accepts_operand t = false) as Hreject.
  { intros s t Hin Hu. apply underscore_token_not_operand; [| exact Hu].
    apply (parse_expression_shape s t Hin). }
  split; [exact Hreject | split; [| split]].
  - intros self expression t Ha Et Hu.
    rewrite (convert_to_rtl_single self expression t Ha Et).
    rewrite (Hreject (Str.strip (item (Str.split "=" expression) 1)) t);
      [reflexivity | | exact Hu].
    unfold rhs_tokens in Et. rewrite Et. left. reflexivity.
  - intros self expression i Ha Hlen Hi Hev Hu Hok.
    assert (accepts_operand (item (rhs_tokens expression) i) = false) as Hbad.
    { apply (Hreject (Str.strip (item (Str.split "=" expression) 1)));
        [| exact Hu].
      apply nth_In. exact Hi. }
    destruct (rhs_tokens expression) as [| t0 [| t1 rest]] eqn:Et;
      simpl in Hlen; try lia.
    rewrite (convert_to_rtl_loop self expression t0 t1 rest Ha Et).
    destruct i as [| [| i]]; [| discriminate |].
    + cbn in Hbad. rewrite Hbad. reflexivity.
    + pose proof (Hok 0 ltac:(lia)) as H0. cbn in H0. rewrite H0.
      assert (exists k, i = 2 * k) as [k ->].
      { cbn [Nat.even] in Hev. apply Nat.even_spec in Hev.
        destruct Hev as [k Hk]. exists k. exact Hk. }
      destruct (pairs_loop_bad_operand k (t1 :: rest) 1 (Some (reg_name 1))
                  (mkRTLConverter 2 [(reg_name 1 ++ " <- " ++ t0)%string]))
        as [self' Hs].
      * simpl in Hi |- *. lia.
      * intros m Hm. specialize (Hok (S m) ltac:(lia)).
        unfold token_ok_at in Hok. rewrite Nat.even_succ in Hok.
        rewrite <- Nat.negb_even in Hok.
        change (item (t0 :: t1 :: rest) (S m)) with (item (t1 :: rest) m) in Hok.
        destruct (Nat.even m); exact Hok.
      * replace (2 * k + 1) with (S (2 * k)) by lia. exact Hbad.
      * rewrite Hs. replace (1 + (2 * k + 1)) with (S (S (2 * k))) by lia.
        reflexivity.
  - intros self expression t Hin Hu.
    apply convert_to_rtl_error.
    destruct (well_formed (rhs_tokens expression)) eqn:Hw;
      [| apply andb_false_r].
    destruct (well_formed_tokens _ t Hw Hin) as [H | H].
    + rewrite (Hreject _ t Hin Hu) in H. discriminate.
    + apply is_operator_no_underscore in H. congruence.
Qed.

Lemma C9_underscore_token_rejected_witness :
  accepts_operand "a_b" = false
  /\ fst (convert_to_rtl init "x = _a")
     = ([], "Error: Invalid single token"%string)
  /\ fst (convert_to_rtl init "x = 6 + a_b")
     = ([], "Error: Expected number or variable at position 2"%string)
  /\ snd (fst (convert_to_rtl init "x = a_b + 1")) <> EmptyString.
Proof.
  destruct C9_underscore_token_rejected as (H1 & H2 & H3 & H4).
  split; [| split; [| split]].
  - apply (H1 "a_b"%string); [left; reflexivity | reflexivity].
  - apply (H2 init "x = _a"%string "_a"%string); reflexivity.
  - apply (H3 init "x = 6 + a_b"%string 2); try reflexivity.
    + vm_compute. lia.
    + vm_compute. lia.
    + intros [| [| j]] Hj; try reflexivity. lia.
  - apply (H4 init "x = a_b + 1"%string "a_b"%string);
      [left; reflexivity | reflexivity].
Defined.

(** ** First alternative against longest prefix *)

Lemma drop_take_while p (s : string) :
  drop (String.length (Str.take_while p s)) s = Str.drop_while p s.
Proof.
  induction s as [| c s IH]; [reflexivity |].
  cbn [Str.take_while Str.drop_while]. destruct (p c); [exact IH | reflexivity].
Qed.

Lemma drop_all (s : string) : drop (String.length s) s = EmptyString.
Proof. induction s as [| c s IH]; [reflexivity | exact IH]. Qed.

Lemma isword_not_op c : Char.isword c = true -> Char.isop c = false.
Proof.
  intros H. destruct (Char.isop c) eqn:E; [| reflexivity].
  apply isop_not_word in E. congruence.
Qed.

(** The longest prefix at a position, by the class of its first character. *)
Lemma longest_prefix_decimal c r :
  Char.isdecimal c = true ->
  longest_prefix (String c r) =
  if String.length (Str.take_while Char.isdecimal r)
     <? String.length (Str.take_while Char.isword r)
  then String c (Str.take_while Char.isword r)
  else String c (Str.take_while Char.isdecimal r).
Proof.
  intros Hd. unfold longest_prefix. cbn [Str.take_while].
  rewrite Hd, (isdecimal_isword c Hd), (isword_not_op c (isdecimal_isword c Hd)).
  unfold longer. cbn [String.length].
  set (a := String.length (Str.take_while Char.isdecimal r)).
  set (b := String.length (Str.take_while Char.isword r)).
  replace (S a <? S b) with (a <? b) by reflexivity.
  destruct (a <? b); reflexivity.
Qed.

Lemma longest_prefix_word c r :
  Char.isdecimal c = false -> Char.isword c = true ->
  longest_prefix (String c r) = String c (Str.take_while Char.isword r).
Proof.
  intros Hd Hw. unfold longest_prefix. cbn [Str.take_while].
  rewrite Hd, Hw, (isword_not_op c Hw). reflexivity.
Qed.

Lemma longest_prefix_op c r :
  Char.isword c = false -> Char.isop c = true ->
  longest_prefix (String c r) = String c EmptyString.
Proof.
  intros Hw Ho. unfold longest_prefix. cbn [Str.take_while].
  assert (Char.isdecimal c = false) as Hd.
  { destruct (Char.isdecimal c) eqn:E; [| reflexivity].
    apply isdecimal_isword in E. congruence. }
  rewrite Hd, Hw, Ho. reflexivity.
Qed.

Lemma longest_prefix_none c r :
  token_char c = false -> longest_prefix (String c r) = EmptyString.
Proof.
  intros H. destruct (token_char_false c H) as (Hd & Hw & Ho).
  unfold longest_prefix. cbn [Str.take_while]. rewrite Hd, Hw, Ho. reflexivity.
Qed.

Lemma digit_then_letter_tail c r :
  digit_then_letter (String c r) = false -> digit_then_letter r = false.
Proof. cbn [digit_then_letter]. intros H. apply orb_false_elim in H. tauto. Qed.

Lemma digit_then_letter_drop_while p (s : string) :
  digit_then_letter s = false -> digit_then_letter (Str.drop_while p s) = false.
Proof.
  induction s as [| c s IH]; [reflexivity |]. intros H.
  cbn [Str.drop_while]. destruct (p c); [| exact H].
  apply IH. apply (digit_then_letter_tail c s H).
Qed.

(** After a digit, with no digit directly before a letter, the run of
    digits and the run of word characters are the same. *)
Lemma digit_run_is_word_run c r :
  Char.isdecimal c = true -> digit_then_letter (String c r) = false ->
  Str.take_while Char.isdecimal r = Str.take_while Char.isword r.
Proof.
  revert c. induction r as [| d r IH]; intros c Hc H; [reflexivity |].
  cbn [digit_then_letter starts_in] in H. rewrite Hc in H. cbn [andb] in H.
  apply orb_false_elim in H as [Hd Hr].
  cbn [Str.take_while]. destruct (Char.isdecimal d) eqn:Ed.
  - rewrite (isdecimal_isword d Ed). f_equal. apply (IH d Ed).
    cbn [digit_then_letter]. rewrite Ed. exact Hr.
  - cbn [negb] in Hd. rewrite andb_true_r in Hd. rewrite Hd. reflexivity.
Qed.

Lemma findall_tokens_longest :
  forall s, digit_then_letter s = false ->
            findall_tokens s = longest_prefix_tokens s.
Proof.
  induction s as [| c r IH] using string_run_ind; intros H.
  - reflexivity.
  - rewrite findall_tokens_equation_2, longest_prefix_tokens_equation_2.
    pose proof (digit_then_letter_tail c r H) as Hr.
    destruct (Char.isdecimal c) eqn:Ed.
    { rewrite (longest_prefix_decimal c r Ed).
      rewrite <- (digit_run_is_word_run c r Ed H).
      rewrite Nat.ltb_irrefl, drop_take_while.
      rewrite IH; [reflexivity | apply drop_while_length |].
      apply digit_then_letter_drop_while, Hr. }
    destruct (Char.isword c) eqn:Ew.
    { rewrite (longest_prefix_word c r Ed Ew), drop_take_while.
      rewrite IH; [reflexivity | apply drop_while_length |].
      apply digit_then_letter_drop_while, Hr. }
    destruct (Char.isop c) eqn:Eo.
    { rewrite (longest_prefix_op c r Ew Eo). cbn [String.length drop].
      rewrite IH by (auto; lia). destruct r; reflexivity. }
    rewrite longest_prefix_none by (unfold token_char; now rewrite Ew, Eo).
    apply IH; [lia | exact Hr].
Qed.

Lemma remove_spaces_id p (s : string) :
  (forall c, p c = true -> Char.eqb_space c = false) ->
  Str.forallb p s = true -> Str.remove_spaces s = s.
Proof.
  intros Hp. unfold Str.remove_spaces.
  induction s as [| c s IH]; [reflexivity |].
  cbn [Str.forallb Str.filter]. intros H. apply andb_prop in H as [Hc Hs].
  rewrite (Hp c Hc), IH by assumption. reflexivity.
Qed.

Lemma isword_not_space c : Char.isword c = true -> Char.eqb_space c = false.
Proof. intros H. apply token_not_space, isword_token_char, H. Qed.

(** Digits directly followed by a word: two tokens for the source, one for
    the longest-prefix reading. *)
Lemma digits_then_word digits c w :
  digits <> EmptyString -> Str.forallb Char.isdecimal digits = true ->
  Char.isword c = true -> Char.isdecimal c = false ->
  Str.forallb Char.isword w = true ->
  findall_tokens (digits ++ String c w) = [digits; String c w]
  /\ longest_prefix_tokens (digits ++ String c w) = [(digits ++ String c w)%string].
Proof.
  intros Hne Hd Hc Hcd Hw. destruct digits as [| d x]; [congruence |].
  cbn [Str.forallb] in Hd. apply andb_prop in Hd as [Hd Hx].
  change (String d x ++ String c w)%string with (String d (x ++ String c w)).
  assert (Str.take_while Char.isdecimal (x ++ String c w) = x) as Htd.
  { rewrite take_while_append by (left; exact Hcd). apply take_while_all, Hx. }
  assert (Str.take_while Char.isword (x ++ String c w) = (x ++ String c w)%string)
    as Htw.
  { apply take_while_all. rewrite forallb_append.
    rewrite (forallb_impl _ _ x isdecimal_isword Hx).
    cbn [Str.forallb]. now rewrite Hc, Hw. }
  split.
  - rewrite findall_tokens_equation_2, Hd, Htd.
    rewrite drop_while_append by (left; exact Hcd).
    rewrite (drop_while_all _ x Hx). cbn [append].
    rewrite findall_tokens_equation_2, Hcd, Hc.
    rewrite (take_while_all _ w Hw), (drop_while_all _ w Hw).
    reflexivity.
  - rewrite longest_prefix_tokens_equation_2.
    rewrite (longest_prefix_decimal d _ Hd), Htd, Htw.
    assert ((String.length x <? String.length (x ++ String c w)) = true) as Hlt.
    { apply Nat.ltb_lt. rewrite length_append. simpl. lia. }
    rewrite Hlt, drop_all. reflexivity.
Qed.

(** C4, as stated, fails: on [12ab] the source yields the digit token [12]
    followed by the word token [ab], not the single token that a
    longest-prefix match gives. *)
Lemma C4_counterexample :
  parse_expression "12ab" = ["12"; "ab"]%string
  /\ spec_parse_expression "12ab" = ["12ab"%string]
  /\ parse_expression "12ab" <> spec_parse_expression "12ab".
Proof. repeat split. discriminate. Qed.

(** C4, amended. On the right-hand side with its spaces removed the
    tokenizer takes, left to right, the first alternative that matches
    among a run of digits, a run of word characters and one operator
    character.  This is the longest such prefix on every input where no
    digit is directly followed by a word character that is not a digit.
    Where digits are directly followed by such a word, the digits are one
    token and the word is the next one, whereas the longest prefix is their
    concatenation. *)
Theorem C4_first_alternative_tokenizer :
  (forall s,
      digit_then_letter (Str.remove_spaces s) = false ->
      parse_expression s = spec_parse_expression s)
  /\ (forall digits word,
        digits <> EmptyString ->
        Str.forallb Char.isdecimal digits = true ->
        Str.forallb Char.isword word = true ->
        starts_in Char.isword word = true ->
        starts_in Char.isdecimal word = false ->
        parse_expression (digits ++ word) = [digits; word]
        /\ spec_parse_expression (digits ++ word) = [(digits ++ word)%string]).
Proof.
  split.
  - intros s H. apply findall_tokens_longest, H.
  - intros digits word Hne Hd Hw Hsw Hsd.
    destruct word as [| c w]; [discriminate |].
    cbn [starts_in] in Hsw, Hsd. cbn [Str.forallb] in Hw.
    apply andb_prop in Hw as [_ Hw].
    unfold parse_expression, spec_parse_expression.
    rewrite (remove_spaces_id Char.isword) by
      (try apply isword_not_space; rewrite forallb_append;
       rewrite (forallb_impl _ _ digits isdecimal_isword Hd);
       cbn [Str.forallb]; now rewrite Hsw, Hw).
    apply digits_then_word; assumption.
Qed.

Lemma C4_first_alternative_tokenizer_witness :
  parse_expression "ab12 + 7" = spec_parse_expression "ab12 + 7"
  /\ parse_expression ("12" ++ "ab") = ["12"; "ab"]%string
  /\ spec_parse_expression ("12" ++ "ab") = [("12" ++ "ab")%string].
Proof.
  destruct C4_first_alternative_tokenizer as [H1 H2].
  split.
  - apply (H1 "ab12 + 7"%string). reflexivity.
  - apply (H2 "12"%string "ab"%string); try reflexivity. discriminate.
Defined.

(** ** Characters the tokenizer drops *)

Lemma append_flatten_take_drop p q (s : string) :
  (forall c, p c = true -> q c = true) ->
  Str.filter q s
  = (Str.take_while p s ++ Str.filter q (Str.drop_while p s))%string.
Proof.
  intros Hpq. induction s as [| c s IH]; [reflexivity |].
  cbn [Str.take_while Str.drop_while]. destruct (p c) eqn:E.
  - cbn [Str.filter append]. rewrite (Hpq c E), IH. reflexivity.
  - reflexivity.
Qed.

Lemma findall_tokens_flatten :
  forall s, flatten (findall_tokens s) = Str.filter token_char s.
Proof.
  induction s as [| c r IH] using string_run_ind; [reflexivity |].
  rewrite findall_tokens_equation_2. cbn [Str.filter]. unfold token_char at 1.
  destruct (Char.isdecimal c) eqn:Ed.
  { rewrite (isdecimal_isword c Ed). cbn [orb flatten append].
    rewrite IH by apply drop_while_length.
    rewrite <- (append_flatten_take_drop Char.isdecimal token_char r
                  isdecimal_token_char).
    reflexivity. }
  destruct (Char.isword c) eqn:Ew.
  { cbn [orb flatten append]. rewrite IH by apply drop_while_length.
    rewrite <- (append_flatten_take_drop Char.isword token_char r
                  isword_token_char).
    reflexivity. }
  destruct (Char.isop c) eqn:Eo; cbn [orb flatten append];
    rewrite IH by lia; reflexivity.
Qed.

Lemma filter_token_remove_spaces (s : string) :
  Str.filter token_char (Str.remove_spaces s) = Str.filter token_char s.
Proof.
  unfold Str.remove_spaces. induction s as [| c s IH]; [reflexivity |].
  cbn [Str.filter]. destruct (Char.eqb_space c) eqn:E; cbn [negb].
  - rewrite (space_not_token c E). exact IH.
  - cbn [Str.filter]. rewrite IH. reflexivity.
Qed.

Lemma remove_spaces_append (a b : string) :
  Str.remove_spaces (a ++ b)
  = (Str.remove_spaces a ++ Str.remove_spaces b)%string.
Proof. apply filter_append. Qed.

(** A dropped character other than the space ends the token before it. *)
Lemma parse_expression_separator c (a b : string) :
  token_char c = false -> Char.eqb_space c = false ->
  parse_expression (a ++ String c b) = parse_expression a ++ parse_expression b.
Proof.
  intros Ht Hs. unfold parse_expression.
  rewrite remove_spaces_append. unfold Str.remove_spaces at 2.
  cbn [Str.filter]. rewrite Hs. cbn [negb].
  apply findall_tokens_separator, Ht.
Qed.

(** The space is removed before the tokens are looked for. *)
Lemma parse_expression_space c (a b : string) :
  Char.eqb_space c = true ->
  parse_expression (a ++ String c b) = parse_expression (a ++ b).
Proof.
  intros Hs. unfold parse_expression.
  rewrite !remove_spaces_append. unfold Str.remove_spaces at 2.
  cbn [Str.filter]. rewrite Hs. reflexivity.
Qed.

Lemma parse_expression_insert c (a b : string) :
  token_char c = false ->
  Char.eqb_space c = true
  \/ ends_in Char.isword (Str.remove_spaces a)
     && starts_in Char.isword (Str.remove_spaces b) = false ->
  parse_expression (a ++ String c b) = parse_expression (a ++ b).
Proof.
  intros Ht H. destruct (Char.eqb_space c) eqn:Es.
  - apply parse_expression_space, Es.
  - destruct H as [H | H]; [discriminate |].
    rewrite parse_expression_separator by assumption.
    unfold parse_expression. rewrite remove_spaces_append.
    symmetry. apply findall_tokens_append, H.
Qed.

Lemma parse_expression_dropped_cons c (s : string) :
  token_char c = false ->
  parse_expression (String c s) = parse_expression s.
Proof.
  intros Ht. change (String c s) with (EmptyString ++ String c s)%string.
  rewrite parse_expression_insert; [reflexivity | exact Ht |].
  right. reflexivity.
Qed.

Lemma parse_expression_dropped_suffix (ws : string) :
  Str.forallb Char.isspace ws = true ->
  forall a, parse_expression (a ++ ws) = parse_expression a.
Proof.
  induction ws as [| c ws IH]; intros H a.
  - rewrite append_empty_r. reflexivity.
  - cbn [Str.forallb] in H. apply andb_prop in H as [Hc Hw].
    change (String c ws) with (String c EmptyString ++ ws)%string.
    rewrite <- append_assoc, IH by assumption.
    rewrite parse_expression_insert;
      [now rewrite append_empty_r | apply isspace_not_token, Hc |].
    right. apply andb_false_r.
Qed.

Lemma rstrip_decompose (s : string) :
  exists ws, s = (Str.rstrip s ++ ws)%string
             /\ Str.forallb Char.isspace ws = true.
Proof.
  induction s as [| c s (ws & Hs & Hw)]; [exists EmptyString; auto |].
  cbn [Str.rstrip]. destruct (Str.rstrip s) as [| d r] eqn:Er.
  - destruct (Char.isspace c) eqn:Ec.
    + exists (String c ws). cbn [append] in *. split; [now rewrite Hs at 1 |].
      cbn [Str.forallb]. now rewrite Ec, Hw.
    + exists ws. cbn [append] in *. split; [now rewrite Hs at 1 | exact Hw].
  - exists ws. split; [| exact Hw]. cbn [append]. rewrite Hs at 1. reflexivity.
Qed.

Lemma parse_expression_lstrip (s : string) :
  parse_expression (Str.lstrip s) = parse_expression s.
Proof.
  unfold Str.lstrip. induction s as [| c s IH]; [reflexivity |].
  cbn [Str.drop_while]. destruct (Char.isspace c) eqn:Ec; [| reflexivity].
  rewrite IH. symmetry. apply parse_expression_dropped_cons.
  apply isspace_not_token, Ec.
Qed.

(** Stripping the right-hand side does not change its tokens. *)
Lemma parse_expression_strip (s : string) :
  parse_expression (Str.strip s) = parse_expression s.
Proof.
  unfold Str.strip. rewrite <- (parse_expression_lstrip s).
  destruct (rstrip_decompose (Str.lstrip s)) as (ws & Hs & Hw).
  rewrite Hs at 2. symmetry. apply parse_expression_dropped_suffix, Hw.
Qed.

(** ** One assignment sign *)

Lemma split_assignment (lhs rhs : string) :
  Str.contains "=" lhs = false -> Str.contains "=" rhs = false ->
  Str.split "=" (lhs ++ String "=" rhs) = [lhs; rhs].
Proof.
  intros Hl Hr. rewrite split_at_sep by assumption.
  rewrite split_no_sep by assumption. reflexivity.
Qed.

(** [convert_to_rtl] looks at the expression through these four only. *)
Lemma convert_to_rtl_same self e e' :
  Str.contains "=" e = Str.contains "=" e' ->
  List.length (Str.split "=" e) = List.length (Str.split "=" e') ->
  lhs_variable e = lhs_variable e' ->
  rhs_tokens e = rhs_tokens e' ->
  convert_to_rtl self e = convert_to_rtl self e'.
Proof.
  intros Hc Hl Hv Ht. unfold convert_to_rtl.
  fold (lhs_variable e) (lhs_variable e') (rhs_tokens e) (rhs_tokens e').
  rewrite Hc, Hl, Hv, Ht. reflexivity.
Qed.

Lemma contains_cons sep c (s : string) :
  Str.contains sep (String c s) = Ascii.eqb sep c || Str.contains sep s.
Proof. reflexivity. Qed.

(** C8, as stated, fails: [(] is dropped by the tokenizer, yet between the
    [a] and the [b] of [x = ab] it makes two tokens of one and turns a
    successful translation into a failure. *)
Lemma C8_counterexample :
  token_char "(" = false
  /\ parse_expression ("a" ++ "b") = ["ab"%string]
  /\ parse_expression ("a" ++ String "(" "b") = ["a"; "b"]%string
  /\ parse_expression ("a" ++ String "(" "b") <> parse_expression ("a" ++ "b")
  /\ fst (convert_to_rtl init ("x = a" ++ "b"))
     = (["x <- ab"%string], EmptyString)
  /\ fst (convert_to_rtl init ("x = a" ++ String "(" "b"))
     = ([], "Error: Expected operator at position 1"%string)
  /\ convert_to_rtl init ("x = a" ++ String "(" "b")
     <> convert_to_rtl init ("x = a" ++ "b").
Proof. repeat split; discriminate. Qed.

(** C8, amended.  Every character of the right-hand side that is neither a
    word character nor an operator character is dropped by the tokenizer
    without a failure: the tokens, written one after the other, are the
    right-hand side without these characters.  Such a character other than
    the space still ends the token before it.  Inserting or removing one in
    the right-hand side (the [=] apart, which would change the assignment)
    leaves the tokens, and so the result of the translation, unchanged
    when the character is a space, or when the nearest characters that are
    no spaces on its two sides are not both word characters. *)
Theorem C8_dropped_characters :
  (forall s, flatten (parse_expression s) = Str.filter token_char s)
  /\ (forall c a b,
        token_char c = false -> Char.eqb_space c = false ->
        parse_expression (a ++ String c b)
        = parse_expression a ++ parse_expression b)
  /\ (forall self lhs c a b,
        token_char c = false ->
        Ascii.eqb c "=" = false ->
        Str.contains "=" lhs = false ->
        Str.contains "=" a = false ->
        Str.contains "=" b = false ->
        Char.eqb_space c = true
        \/ ends_in Char.isword (Str.remove_spaces a)
           && starts_in Char.isword (Str.remove_spaces b) = false ->
        parse_expression (a ++ String c b) = parse_expression (a ++ b)
        /\ convert_to_rtl self (lhs ++ "=" ++ a ++ String c b)
           = convert_to_rtl self (lhs ++ "=" ++ a ++ b)).
Proof.
  split; [| split].
  - intros s. unfold parse_expression.
    rewrite findall_tokens_flatten. apply filter_token_remove_spaces.
  - intros c a b. apply parse_expression_separator.
  - intros self lhs c a b Ht Hc Hlhs Ha Hb Hside.
    pose proof (parse_expression_insert c a b Ht Hside) as Hp.
    split; [exact Hp |].
    assert (Str.contains "=" (a ++ String c b) = false) as Hacb.
    { rewrite contains_append, contains_cons, Ha, Hb.
      rewrite Ascii.eqb_sym, Hc. reflexivity. }
    assert (Str.contains "=" (a ++ b) = false) as Hab.
    { rewrite contains_append, Ha, Hb. reflexivity. }
    change (lhs ++ "=" ++ a ++ String c b)%string
      with (lhs ++ String "=" (a ++ String c b))%string.
    change (lhs ++ "=" ++ a ++ b)%string
      with (lhs ++ String "=" (a ++ b))%string.
    apply convert_to_rtl_same.
    + rewrite !contains_append, !contains_cons. reflexivity.
    + rewrite !split_assignment by assumption. reflexivity.
    + unfold lhs_variable. rewrite !split_assignment by assumption.
      reflexivity.
    + unfold rhs_tokens. rewrite !split_assignment by assumption.
      cbn [item nth]. rewrite !parse_expression_strip. exact Hp.
Qed.

Lemma C8_dropped_characters_witness :
  flatten (parse_expression "(a + 1)!") = Str.filter token_char "(a + 1)!"
  /\ parse_expression ("a" ++ String "(" "b")
     = parse_expression "a" ++ parse_expression "b"
  /\ parse_expression ("(a +" ++ String ")" " 1")
     = parse_expression ("(a +" ++ " 1")
  /\ convert_to_rtl init ("x " ++ "=" ++ "(a +" ++ String ")" " 1")
     = convert_to_rtl init ("x " ++ "=" ++ "(a +" ++ " 1").
Proof.
  destruct C8_dropped_characters as (H1 & H2 & H3).
  split; [apply H1 | split; [apply H2; reflexivity |]].
  apply (H3 init "x "%string ")"%char "(a +"%string " 1"%string);
    try reflexivity.
  right. reflexivity.
Defined.

(** ** The scenarios of the specification *)

Example scenario_two_operators :
  fst (convert_to_rtl init "result = a + b - 3")
  = (["R1 <- a"; "R2 <- b"; "R3 <- R1 + R2"; "R4 <- 3"; "R5 <- R3 - R4";
      "result <- R5"]%string, EmptyString).
Proof. reflexivity. Qed.

Example scenario_single_operand :
  fst (convert_to_rtl init "x = 5") = (["x <- 5"%string], EmptyString).
Proof. reflexivity. Qed.

Example scenario_no_assignment :
  fst (convert_to_rtl init "x + 5")
  = ([], "Error: Expression must contain an assignment (=)"%string).
Proof. reflexivity. Qed.

Example scenario_two_assignments :
  fst (convert_to_rtl init "x = y = 5")
  = ([], "Error: Invalid assignment format"%string).
Proof. reflexivity. Qed.

Example scenario_invalid_variable :
  fst (convert_to_rtl init "3x = 5")
  = ([], "Error: Invalid variable name"%string).
Proof. reflexivity. Qed.

Example scenario_empty_expression :
  fst (convert_to_rtl init "y = ") = ([], "Error: Empty expression"%string).
Proof. reflexivity. Qed.

Example scenario_mixed_single_token :
  fst (convert_to_rtl init "x = a1") = ([], "Error: Invalid single token"%string).
Proof. reflexivity. Qed.

(** * Further properties of the code *)

(** ** [split] and the assignment sign *)

Lemma split_nonempty sep (s : string) : Str.split sep s <> [].
Proof.
  induction s as [| c s IH]; [discriminate |].
  cbn [Str.split]. destruct (Ascii.eqb c sep); [discriminate |].
  destruct (Str.split sep s); discriminate.
Qed.

Lemma split_length sep (s : string) :
  List.length (Str.split sep s) = S (count_char sep s).
Proof.
  induction s as [| c s IH]; [reflexivity |].
  cbn [Str.split count_char]. destruct (Ascii.eqb c sep).
  - cbn [List.length]. rewrite IH. reflexivity.
  - destruct (Str.split sep s) as [| p ps]; [discriminate |].
    cbn [List.length] in *. exact IH.
Qed.

Lemma concat_cons sep x (l : list string) :
  l <> [] ->
  String.concat sep (x :: l) = (x ++ sep ++ String.concat sep l)%string.
Proof. destruct l; [congruence | reflexivity]. Qed.

Lemma split_join sep (s : string) :
  String.concat (String sep EmptyString) (Str.split sep s) = s.
Proof.
  induction s as [| c s IH]; [reflexivity |].
  cbn [Str.split]. pose proof (split_nonempty sep s) as Hn.
  destruct (Ascii.eqb_spec c sep) as [-> | Hne].
  - rewrite concat_cons by assumption. rewrite IH. reflexivity.
  - destruct (Str.split sep s) as [| p ps]; [congruence |].
    destruct ps as [| q ps].
    + cbn [String.concat] in *. now rewrite IH.
    + rewrite concat_cons by discriminate.
      rewrite concat_cons in IH by discriminate.
      cbn [append] in *. now rewrite IH.
Qed.

Lemma split_parts_no_sep sep (s : string) :
  Forall (fun p => Str.contains sep p = false) (Str.split sep s).
Proof.
  induction s as [| c s IH]; [repeat constructor |].
  cbn [Str.split]. destruct (Ascii.eqb c sep) eqn:E.
  - constructor; [reflexivity | exact IH].
  - destruct (Str.split sep s) as [| p ps]; [repeat constructor |].
    + unfold Str.contains. cbn [Str.existsb].
      rewrite Ascii.eqb_sym, E. reflexivity.
    + inversion IH as [| x l Hp Hps]; subst. constructor; [| exact Hps].
      unfold Str.contains in *. cbn [Str.existsb].
      rewrite Ascii.eqb_sym, E. exact Hp.
Qed.

(** X1. [split]: one more part than there are separators, no part holds
    the separator, and joining the parts with the separator gives the
    string back. *)
Theorem X1_split_round_trip :
  forall sep s,
    List.length (Str.split sep s) = S (count_char sep s)
    /\ Forall (fun p => Str.contains sep p = false) (Str.split sep s)
    /\ String.concat (String sep EmptyString) (Str.split sep s) = s.
Proof.
  intros sep s. split; [apply split_length | split].
  - apply split_parts_no_sep.
  - apply split_join.
Qed.

Lemma contains_count sep (s : string) :
  Str.contains sep s = negb (count_char sep s =? 0).
Proof.
  unfold Str.contains. induction s as [| c s IH]; [reflexivity |].
  cbn [Str.existsb count_char]. rewrite IH, (Ascii.eqb_sym sep c).
  destruct (Ascii.eqb c sep); reflexivity.
Qed.

Lemma assignment_ok_count expression :
  assignment_ok expression = true -> count_char "=" expression = 1.
Proof.
  unfold assignment_ok. intros H. apply andb_prop in H as [H _].
  apply andb_prop in H as [_ H]. apply Nat.eqb_eq in H.
  rewrite split_length in H. lia.
Qed.

(** X2. The number of [=] decides the first two checks: with none the
    call reports the missing assignment, with two or more the invalid
    assignment format, whatever else the expression holds; and a call that
    succeeds was given exactly one [=]. *)
Theorem X2_one_assignment_sign :
  forall self expression,
    (count_char "=" expression = 0 ->
     fst (convert_to_rtl self expression)
     = ([], "Error: Expression must contain an assignment (=)"%string))
    /\ (2 <= count_char "=" expression ->
        fst (convert_to_rtl self expression)
        = ([], "Error: Invalid assignment format"%string))
    /\ (snd (fst (convert_to_rtl self expression)) = EmptyString ->
        count_char "=" expression = 1).
Proof.
  intros self expression. split; [| split].
  - intros H. unfold convert_to_rtl. rewrite contains_count, H. reflexivity.
  - intros H. unfold convert_to_rtl. rewrite contains_count, split_length.
    destruct (Nat.eqb_spec (count_char "=" expression) 0); [lia |].
    cbn [negb].
    destruct (Nat.eqb_spec (S (count_char "=" expression)) 2); [lia |].
    reflexivity.
  - intros H.
    destruct (assignment_ok expression) eqn:Ha;
      [apply assignment_ok_count, Ha |].
    destruct (convert_to_rtl_error self expression) as [_ Hne];
      [rewrite Ha; reflexivity | congruence].
Qed.

Lemma X2_one_assignment_sign_witness :
  fst (convert_to_rtl init "x + 5")
  = ([], "Error: Expression must contain an assignment (=)"%string)
  /\ fst (convert_to_rtl init "x = y = 5")
     = ([], "Error: Invalid assignment format"%string)
  /\ count_char "=" "x = 6 + 9" = 1.
Proof.
  destruct (X2_one_assignment_sign init "x + 5") as (H1 & _ & _).
  destruct (X2_one_assignment_sign init "x = y = 5") as (_ & H2 & _).
  destruct (X2_one_assignment_sign init "x = 6 + 9") as (_ & _ & H3).
  split; [apply H1; reflexivity | split].
  - apply H2. vm_compute. lia.
  - apply H3. reflexivity.
Defined.

(** ** The variable *)

Lemma drop_while_starts_false p (s : string) :
  starts_in p (Str.drop_while p s) = false.
Proof.
  induction s as [| c s IH]; [reflexivity |].
  cbn [Str.drop_while]. destruct (p c) eqn:E; [exact IH | exact E].
Qed.

Lemma rstrip_no_trailing_space (s : string) :
  ends_in Char.isspace (Str.rstrip s) = false.
Proof.
  induction s as [| c s IH]; [reflexivity |].
  cbn [Str.rstrip]. destruct (Str.rstrip s) as [| d r] eqn:Er.
  - destruct (Char.isspace c) eqn:Ec; [reflexivity | exact Ec].
  - exact IH.
Qed.

Lemma ends_in_append_cons p (a : string) c :
  ends_in p (a ++ String c EmptyString) = p c.
Proof.
  induction a as [| x a IH]; [reflexivity |].
  cbn [append]. rewrite ends_in_cons; [exact IH |].
  destruct a; discriminate.
Qed.

Lemma drop_while_empty_all p (s : string) :
  Str.drop_while p s = EmptyString -> Str.forallb p s = true.
Proof.
  intros H. rewrite <- (take_drop_while p s), H, append_empty_r.
  apply forallb_take_while.
Qed.

Lemma ident_part_not_isspace' :
  forall c, Char.ident_part c = true -> Char.isspace c = false.
Proof. char_fact. Qed.

Lemma rstrip_all_space (w : string) :
  Str.forallb Char.isspace w = true -> Str.rstrip w = EmptyString.
Proof.
  induction w as [| c w IH]; [reflexivity |].
  cbn [Str.forallb Str.rstrip]. intros H. apply andb_prop in H as [Hc Hw].
  rewrite (IH Hw), Hc. reflexivity.
Qed.

Lemma rstrip_pad (s w : string) :
  Str.forallb Char.isspace w = true -> Str.rstrip (s ++ w) = Str.rstrip s.
Proof.
  intros Hw. induction s as [| c s IH].
  - apply rstrip_all_space, Hw.
  - cbn [append Str.rstrip]. rewrite IH. reflexivity.
Qed.

(** A string without white space is left as it is. *)
Lemma rstrip_id (s : string) :
  Str.forallb (fun c => negb (Char.isspace c)) s = true -> Str.rstrip s = s.
Proof.
  induction s as [| c s IH]; [reflexivity |].
  cbn [Str.forallb Str.rstrip]. intros H. apply andb_prop in H as [Hc Hs].
  rewrite (IH Hs). apply negb_true_iff in Hc. rewrite Hc.
  destruct s; reflexivity.
Qed.

Lemma match_identifier_strip (s : string) :
  match_identifier (Str.strip s)
  = starts_in Char.ident_start (Str.strip s)
    && Str.forallb Char.ident_part (Str.strip s).
Proof.
  pose proof (rstrip_no_trailing_space (Str.lstrip s)) as Hend.
  fold (Str.strip s) in Hend.
  destruct (Str.strip s) as [| c r]; [reflexivity |].
  cbn [match_identifier starts_in Str.forallb].
  destruct (Char.ident_start c) eqn:Ec; [| reflexivity].
  rewrite (ident_start_part c Ec). cbn [andb].
  destruct (Str.drop_while Char.ident_part r) as [| d [| d' r']] eqn:Ed.
  - symmetry. apply drop_while_empty_all, Ed.
  - destruct (Ascii.eqb_spec d "010") as [-> | Hne].
    + exfalso. rewrite <- (take_drop_while Char.ident_part r), Ed in Hend.
      change (String c (?a ++ ?b))%string with (String c a ++ b)%string in Hend.
      rewrite ends_in_append_cons in Hend. discriminate.
    + symmetry. rewrite <- (take_drop_while Char.ident_part r), Ed.
      rewrite forallb_append. cbn [Str.forallb].
      pose proof (drop_while_starts_false Char.ident_part r) as Hs.
      rewrite Ed in Hs. cbn [starts_in] in Hs. rewrite Hs.
      apply andb_false_r.
  - symmetry. rewrite <- (take_drop_while Char.ident_part r), Ed.
    rewrite forallb_append. cbn [Str.forallb].
    pose proof (drop_while_starts_false Char.ident_part r) as Hs.
    rewrite Ed in Hs. cbn [starts_in] in Hs. rewrite Hs.
    apply andb_false_r.
Qed.

(** X3. The variable test on a stripped string is the identifier grammar
    exactly: a letter or underscore first, then letters, digits and
    underscores only.  The [$] of the pattern alone also lets an identifier
    followed by a newline pass; [strip] has removed it before the test. *)
Theorem X3_stripped_variable_is_identifier :
  (forall s,
      match_identifier (Str.strip s)
      = starts_in Char.ident_start (Str.strip s)
        && Str.forallb Char.ident_part (Str.strip s))
  /\ (forall s,
        starts_in Char.ident_start s = true ->
        Str.forallb Char.ident_part s = true ->
        match_identifier (s ++ String newline EmptyString) = true
        /\ Str.strip (s ++ String newline EmptyString) = s).
Proof.
  split; [apply match_identifier_strip |].
  intros [| c r]; [discriminate |]. cbn [starts_in Str.forallb].
  intros Hc H. apply andb_prop in H as [Hp Hr]. split.
  - cbn [match_identifier append]. rewrite Hc. cbn [andb].
    rewrite drop_while_append by (left; reflexivity).
    rewrite (drop_while_all _ r Hr). reflexivity.
  - unfold Str.strip, Str.lstrip.
    change (String c r ++ String newline EmptyString)%string
      with (String c (r ++ String newline EmptyString)).
    cbn [Str.drop_while]. rewrite (ident_part_not_isspace' c Hp).
    change (String c (r ++ String newline EmptyString))
      with (String c r ++ String newline EmptyString)%string.
    rewrite rstrip_pad by reflexivity.
    apply rstrip_id.
    cbn [Str.forallb]. rewrite (ident_part_not_isspace' c Hp).
    apply (forallb_impl Char.ident_part); [| exact Hr].
    intros x Hx. rewrite (ident_part_not_isspace' x Hx). reflexivity.
Qed.

Lemma X3_stripped_variable_is_identifier_witness :
  match_identifier ("x1" ++ String newline EmptyString) = true
  /\ Str.strip ("x1" ++ String newline EmptyString) = "x1"%string.
Proof.
  apply (proj2 X3_stripped_variable_is_identifier "x1"%string); reflexivity.
Defined.

(** ** Which expressions translate, and where the others stop *)

Lemma token_ok_at_succ t0 rest m :
  token_ok_at (t0 :: rest) (S m) = rest_ok_at rest m.
Proof.
  unfold token_ok_at, rest_ok_at. rewrite Nat.even_succ, <- Nat.negb_even.
  change (item (t0 :: rest) (S m)) with (item rest m).
  destruct (Nat.even m); reflexivity.
Qed.

Lemma alternates_spec rest :
  alternates rest = true
  <-> Nat.even (List.length rest) = true
      /\ forall m, m < List.length rest -> rest_ok_at rest m = true.
Proof.
  induction rest as [rest IH] using (well_founded_induction
    (wf_inverse_image _ nat _ (@List.length string) lt_wf)).
  destruct rest as [| op [| t rest2]].
  - split; [| reflexivity]. intros _. split; [reflexivity |].
    simpl. intros m Hm. lia.
  - split; [discriminate |]. intros [H _]. discriminate.
  - cbn [alternates List.length Nat.even]. rewrite !andb_true_iff.
    rewrite (IH rest2) by (simpl; lia). split.
    + intros [[Hop Ht] [He Hok]]. split; [exact He |].
      intros [| [| m]] Hm; [exact Hop | exact Ht |].
      specialize (Hok m ltac:(lia)). exact Hok.
    + intros [He Hok]. repeat split.
      * exact (Hok 0 ltac:(lia)).
      * exact (Hok 1 ltac:(lia)).
      * exact He.
      * intros m Hm. exact (Hok (S (S m)) ltac:(lia)).
Qed.

Lemma well_formed_spec tokens :
  well_formed tokens = true
  <-> Nat.odd (List.length tokens) = true
      /\ forall j, j < List.length tokens -> token_ok_at tokens j = true.
Proof.
  destruct tokens as [| t0 rest].
  - split; [discriminate |]. intros [H _]. discriminate.
  - cbn [well_formed List.length]. rewrite andb_true_iff, alternates_spec.
    rewrite Nat.odd_succ. split.
    + intros [H0 [He Hok]]. split; [exact He |].
      intros [| j] Hj; [exact H0 |].
      rewrite token_ok_at_succ. apply Hok. lia.
    + intros [He Hok]. repeat split; [exact (Hok 0 ltac:(lia)) | exact He |].
      intros m Hm. rewrite <- (token_ok_at_succ t0). apply Hok. lia.
Qed.

Lemma assignment_ok_spec expression :
  assignment_ok expression = true
  <-> count_char "=" expression = 1
      /\ match_identifier (lhs_variable expression) = true.
Proof.
  unfold assignment_ok. rewrite contains_count, split_length.
  rewrite !andb_true_iff, negb_true_iff, Nat.eqb_neq, Nat.eqb_eq.
  split; [intros [[H0 H1] Hm] | intros [H1 Hm]]; repeat split; auto; lia.
Qed.

(** X4. The criterion of success.  A call returns the empty error string
    exactly when the expression has one [=], the stripped text before it
    passes the variable test, and the tokens of the right-hand side are odd
    in number with an operand at every even index and an operator at every
    odd index. *)
Theorem X4_success_criterion :
  forall self expression,
    snd (fst (convert_to_rtl self expression)) = EmptyString
    <-> count_char "=" expression = 1
        /\ match_identifier (lhs_variable expression) = true
        /\ Nat.odd (List.length (rhs_tokens expression)) = true
        /\ forall j, j < List.length (rhs_tokens expression) ->
                     token_ok_at (rhs_tokens expression) j = true.
Proof.
  intros self expression. split.
  - intros H.
    destruct (assignment_ok expression && well_formed (rhs_tokens expression))
      eqn:E.
    + apply andb_prop in E as [Ha Hw].
      apply assignment_ok_spec in Ha as [Hc Hm].
      apply well_formed_spec in Hw as [Ho Hok]. auto.
    + destruct (convert_to_rtl_error self expression E) as [_ Hne].
      congruence.
  - intros (Hc & Hm & Ho & Hok).
    rewrite convert_to_rtl_ok; [reflexivity | |].
    + apply assignment_ok_spec. auto.
    + apply well_formed_spec. auto.
Qed.

(** The loop passes over [k] pairs that fit. *)
Lemma pairs_loop_skip k :
  forall rest i acc self,
    2 * k <= List.length rest ->
    (forall m, m < 2 * k -> rest_ok_at rest m = true) ->
    exists acc' self',
      pairs_loop rest i acc self
      = pairs_loop (skipn (2 * k) rest) (i + 2 * k) acc' self'.
Proof.
  induction k as [| k IH]; intros rest i acc self Hlen Hok.
  - exists acc, self. simpl. rewrite Nat.add_0_r. reflexivity.
  - destruct rest as [| op [| t rest2]]; simpl in Hlen; try lia.
    pose proof (Hok 0 ltac:(lia)) as Hop. cbn in Hop.
    pose proof (Hok 1 ltac:(lia)) as Ht. cbn in Ht.
    cbn [pairs_loop]. rewrite Hop, Ht. cbn [negb].
    replace (2 * S k) with (S (S (2 * k))) by lia. cbn [skipn].
    match goal with
    | |- exists a s, pairs_loop rest2 ?i' ?a' ?s' = _ =>
        destruct (IH rest2 i' a' s') as (acc' & self' & Hs)
    end.
    + lia.
    + intros m Hm. exact (Hok (S (S m)) ltac:(lia)).
    + exists acc', self'. rewrite Hs.
      replace (i + 2 + 2 * k) with (i + S (S (2 * k))) by lia. reflexivity.
Qed.

Lemma even_double m : Nat.even m = true -> exists k, m = 2 * k.
Proof. intros H. apply Nat.even_spec in H. exact H. Qed.

Lemma odd_double m : Nat.even m = false -> exists k, m = 2 * k + 1.
Proof.
  intros H. assert (Nat.odd m = true) as Ho
    by (rewrite <- Nat.negb_even, H; reflexivity).
  apply Nat.odd_spec in Ho. exact Ho.
Qed.

(** The loop stops at the first token of the rest that does not fit. *)
Lemma pairs_loop_first_bad rest i acc self m :
  m < List.length rest ->
  (forall m', m' < m -> rest_ok_at rest m' = true) ->
  rest_ok_at rest m = false ->
  exists self',
    pairs_loop rest i acc self
    = Returned ([], ((if Nat.even m
                      then "Error: Expected operator at position "
                      else "Error: Expected number or variable at position ")
                     ++ Str.of_nat (i + m))%string) self'.
Proof.
  intros Hm Hok Hbad. unfold rest_ok_at in Hbad.
  destruct (Nat.even m) eqn:Ev.
  - destruct (even_double m Ev) as [k ->].
    destruct (pairs_loop_skip k rest i acc self) as (acc' & self' & Hs);
      [lia | exact Hok |].
    rewrite Hs, (skipn_item rest (2 * k)) by exact Hm.
    cbn [pairs_loop]. rewrite Hbad. cbn [negb]. eexists. reflexivity.
  - destruct (odd_double m Ev) as [k ->].
    apply pairs_loop_bad_operand; [exact Hm | | exact Hbad].
    intros m' Hm'. exact (Hok m' Hm').
Qed.

(** An operator as the last token leaves its operand missing. *)
Lemma pairs_loop_missing rest i acc self :
  Nat.even (List.length rest) = false ->
  (forall m, m < List.length rest -> rest_ok_at rest m = true) ->
  exists self',
    pairs_loop rest i acc self
    = Returned ([], "Error: Missing operand after operator"%string) self'.
Proof.
  intros Ev Hok. destruct (odd_double _ Ev) as [k Hk].
  destruct (pairs_loop_skip k rest i acc self) as (acc' & self' & Hs);
    [lia | intros m Hm; apply Hok; lia |].
  rewrite Hs, (skipn_item rest (2 * k)) by lia.
  rewrite (skipn_all_nil rest (2 * k + 1)) by lia.
  pose proof (Hok (2 * k) ltac:(lia)) as Hop. unfold rest_ok_at in Hop.
  assert (Nat.even (2 * k) = true) as E2
    by (apply Nat.even_spec; exists k; reflexivity).
  rewrite E2 in Hop.
  cbn [pairs_loop]. rewrite Hop. cbn [negb]. eexists. reflexivity.
Qed.

(** X5. Where a translation of two or more tokens stops.  The call reports
    the first index whose token does not fit: an operand was expected at an
    even index, an operator at an odd one.  When every token fits and
    their number is even, the last token is an operator and the call
    reports its missing operand. *)
Theorem X5_first_failure :
  forall self expression,
    assignment_ok expression = true ->
    2 <= List.length (rhs_tokens expression) ->
    (forall j,
        j < List.length (rhs_tokens expression) ->
        (forall i, i < j -> token_ok_at (rhs_tokens expression) i = true) ->
        token_ok_at (rhs_tokens expression) j = false ->
        fst (convert_to_rtl self expression)
        = ([], ((if Nat.even j
                 then "Error: Expected number or variable at position "
                 else "Error: Expected operator at position ")
                ++ Str.of_nat j)%string))
    /\ ((forall i, i < List.length (rhs_tokens expression) ->
                   token_ok_at (rhs_tokens expression) i = true) ->
        Nat.even (List.length (rhs_tokens expression)) = true ->
        fst (convert_to_rtl self expression)
        = ([], "Error: Missing operand after operator"%string)).
Proof.
  intros self expression Ha Hlen.
  destruct (rhs_tokens expression) as [| t0 [| t1 rest]] eqn:Et;
    simpl in Hlen; try lia.
  rewrite (convert_to_rtl_loop self expression t0 t1 rest Ha Et).
  split.
  - intros j Hj Hok Hbad. destruct j as [| m].
    + cbn in Hbad. rewrite Hbad. reflexivity.
    + pose proof (Hok 0 ltac:(lia)) as H0. cbn in H0. rewrite H0.
      rewrite token_ok_at_succ in Hbad.
      destruct (pairs_loop_first_bad (t1 :: rest) 1 (Some (reg_name 1))
                  (mkRTLConverter 2 [(reg_name 1 ++ " <- " ++ t0)%string]) m)
        as [self' Hs].
      * simpl in Hj |- *. lia.
      * intros m' Hm'. rewrite <- (token_ok_at_succ t0). apply Hok. lia.
      * exact Hbad.
      * rewrite Hs. rewrite Nat.even_succ, <- Nat.negb_even.
        destruct (Nat.even m); reflexivity.
  - intros Hok Hev.
    pose proof (Hok 0 ltac:(simpl; lia)) as H0. cbn in H0. rewrite H0.
    destruct (pairs_loop_missing (t1 :: rest) 1 (Some (reg_name 1))
                (mkRTLConverter 2 [(reg_name 1 ++ " <- " ++ t0)%string]))
      as [self' Hs].
    + change (List.length (t0 :: t1 :: rest))
        with (S (List.length (t1 :: rest))) in Hev.
      rewrite Nat.even_succ, <- Nat.negb_even in Hev.
      destruct (Nat.even (List.length (t1 :: rest))); [discriminate | reflexivity].
    + intros m Hm. rewrite <- (token_ok_at_succ t0). apply Hok. simpl in *. lia.
    + rewrite Hs. reflexivity.
Qed.

Lemma X5_first_failure_witness :
  fst (convert_to_rtl init "x = a + b1")
  = ([], "Error: Expected number or variable at position 2"%string)
  /\ fst (convert_to_rtl init "y = 1 + 2 (3) 4")
     = ([], "Error: Expected operator at position 3"%string)
  /\ fst (convert_to_rtl init "z = 1 + 2 -")
     = ([], "Error: Missing operand after operator"%string).
Proof.
  split; [| split].
  - destruct (X5_first_failure init "x = a + b1") as [H _];
      [reflexivity | vm_compute; lia |].
    apply (H 2); [vm_compute; lia | | reflexivity].
    intros [| [| i]] Hi; try reflexivity. lia.
  - destruct (X5_first_failure init "y = 1 + 2 (3) 4") as [H _];
      [reflexivity | vm_compute; lia |].
    apply (H 3); [vm_compute; lia | | reflexivity].
    intros [| [| [| i]]] Hi; try reflexivity. lia.
  - destruct (X5_first_failure init "z = 1 + 2 -") as [_ H];
      [reflexivity | vm_compute; lia |].
    apply H; [| reflexivity].
    intros [| [| [| [| i]]]] Hi; try reflexivity. vm_compute in Hi. lia.
Defined.

(** ** The messages *)

Lemma pairs_loop_messages rest i acc self out self' :
  pairs_loop rest i acc self = Returned out self' ->
  out = ([], "Error: Missing operand after operator"%string)
  \/ exists j,
      j < List.length rest
      /\ (out = ([], ("Error: Expected operator at position "
                      ++ Str.of_nat (i + j))%string)
          \/ out = ([], ("Error: Expected number or variable at position "
                         ++ Str.of_nat (i + j))%string)).
Proof.
  functional induction (pairs_loop rest i acc self); intros H;
    try discriminate.
  - inversion H; subst. right. exists 0. rewrite Nat.add_0_r.
    split; [simpl; lia | left; reflexivity].
  - inversion H; subst. left. reflexivity.
  - inversion H; subst. right. exists 1.
    split; [simpl; lia | right; reflexivity].
  - destruct (IHl H) as [Hm | (j & Hj & Hout)]; [left; exact Hm |].
    right. exists (S (S j)). split; [simpl; lia |].
    replace (i + S (S j)) with (i + 2 + j) by lia. exact Hout.
Qed.

(** X6. The messages a call can return.  The error string is empty, or one
    of the five fixed messages, or names a token index of the right-hand
    side at which an operator or an operand was expected. *)
Theorem X6_error_messages :
  forall self expression,
    let error := snd (fst (convert_to_rtl self expression)) in
    In error
      [EmptyString;
       "Error: Expression must contain an assignment (=)";
       "Error: Invalid assignment format";
       "Error: Invalid variable name";
       "Error: Empty expression";
       "Error: Invalid single token";
       "Error: Missing operand after operator"]%string
    \/ exists j,
        j < List.length (rhs_tokens expression)
        /\ (error = ("Error: Expected operator at position "
                     ++ Str.of_nat j)%string
            \/ error = ("Error: Expected number or variable at position "
                        ++ Str.of_nat j)%string).
Proof.
  intros self expression error. subst error. unfold convert_to_rtl.
  destruct (negb (Str.contains "=" expression)); [left; simpl; tauto |].
  destruct (negb (List.length (Str.split "=" expression) =? 2));
    [left; simpl; tauto |].
  fold (lhs_variable expression).
  destruct (negb (match_identifier (lhs_variable expression)));
    [left; simpl; tauto |].
  fold (rhs_tokens expression).
  destruct (rhs_tokens expression) as [| t0 [| op rest]];
    [left; simpl; tauto | |].
  - cbn [List.length Nat.eqb item nth].
    destruct (is_number t0 || Str.isalpha t0); left; simpl; tauto.
  - cbn [List.length Nat.eqb]. rewrite while_loop_run.
    destruct (accepts_operand t0);
      [| right; exists 0; split; [simpl; lia | right; reflexivity]].
    match goal with
    | |- context [pairs_loop ?r ?i ?a ?s] =>
        destruct (pairs_loop r i a s) as [out s' | cur s'] eqn:Ep
    end.
    + apply pairs_loop_messages in Ep as [-> | (j & Hj & [-> | ->])].
      * left. simpl. tauto.
      * right. exists (1 + j). split; [simpl in *; lia | left; reflexivity].
      * right. exists (1 + j). split; [simpl in *; lia | right; reflexivity].
    + left. simpl. tauto.
Qed.

(** X7. No sign before the first operand.  When the first token of the
    right-hand side is an operator, as in [x = -5], the call fails: with
    the invalid-single-token error when it is the only token, otherwise
    with the expected-number-or-variable error at position 0. *)
Theorem X7_leading_operator :
  forall self expression op rest,
    assignment_ok expression = true ->
    rhs_tokens expression = op :: rest ->
    is_operator op = true ->
    fst (convert_to_rtl self expression)
    = ([], match rest with
           | [] => "Error: Invalid single token"
           | _ => "Error: Expected number or variable at position 0"
           end%string).
Proof.
  intros self expression op rest Ha Et Hop.
  pose proof (is_operator_not_operand op Hop) as Hn.
  destruct rest as [| t1 rest].
  - rewrite (convert_to_rtl_single self expression op Ha Et), Hn. reflexivity.
  - rewrite (convert_to_rtl_loop self expression op t1 rest Ha Et), Hn.
    reflexivity.
Qed.

Lemma X7_leading_operator_witness :
  rhs_tokens "x = -5" = ["-"; "5"]%string
  /\ fst (convert_to_rtl init "x = -5")
     = ([], "Error: Expected number or variable at position 0"%string).
Proof.
  split; [reflexivity |].
  apply (X7_leading_operator init "x = -5" "-"%string ["5"%string]);
    reflexivity.
Defined.

(** ** Operands *)

Lemma isdecimal_not_int_space' :
  forall c, Char.isdecimal c = true -> Char.int_space c = false.
Proof. char_fact. Qed.

Lemma isdecimal_not_sign :
  forall c, Char.isdecimal c = true ->
            Ascii.eqb c "+" || Ascii.eqb c "-" = false.
Proof. char_fact. Qed.

Lemma isalpha_isword' :
  forall c, Char.isalpha c = true -> Char.isword c = true.
Proof. char_fact. Qed.

Lemma int_digits_all_decimal (s : string) :
  Str.forallb Char.isdecimal s = true -> int_digits true s = true.
Proof.
  induction s as [| c s IH]; [reflexivity |].
  cbn [Str.forallb int_digits]. intros H. apply andb_prop in H as [Hc Hs].
  rewrite Hc. exact (IH Hs).
Qed.

Lemma filter_all p (s : string) :
  Str.forallb p s = true -> Str.filter p s = s.
Proof.
  induction s as [| c s IH]; [reflexivity |].
  cbn [Str.forallb Str.filter]. intros H. apply andb_prop in H as [Hc Hs].
  rewrite Hc, (IH Hs). reflexivity.
Qed.

(** A run of digits is a number up to the limit on its length. *)
Lemma digits_are_number c w :
  Char.isdecimal c = true -> Str.forallb Char.isdecimal w = true ->
  is_number (String c w)
  = (String.length (String c w) <=? int_max_str_digits).
Proof.
  intros Hc Hw. unfold is_number, int_syntax, int_digit_count.
  cbn [Str.drop_while].
  rewrite (isdecimal_not_int_space' c Hc), (isdecimal_not_sign c Hc).
  cbn [int_digits]. rewrite Hc, (int_digits_all_decimal w Hw).
  rewrite filter_all by (cbn [Str.forallb]; now rewrite Hc, Hw).
  reflexivity.
Qed.

Lemma isop_cases :
  forall c, Char.isop c = true ->
            Ascii.eqb c "+" || Ascii.eqb c "-"
            || Ascii.eqb c "*" || Ascii.eqb c "/" = true.
Proof. char_fact. Qed.

Lemma isop_token_is_operator c :
  Char.isop c = true -> is_operator (String c EmptyString) = true.
Proof.
  intros Hc. pose proof (isop_cases c Hc) as Hf. unfold is_operator.
  cbn [String.eqb].
  destruct (Ascii.eqb c "+"), (Ascii.eqb c "-"), (Ascii.eqb c "*"),
    (Ascii.eqb c "/"); try discriminate; reflexivity.
Qed.

(** X8. What the tokenizer yields and which tokens are operands.  Every
    token is a run of digits, a run of word characters that does not
    start with a digit, or one operator character; it is never empty.  A
    token is accepted as an operand exactly when it is all digits, at most
    4300 of them (the limit of [int] on the digits of a string), or all
    letters, and as an operator exactly when it is one operator character;
    so a word that mixes letters with digits or underscores is neither. *)
Theorem X8_token_kinds :
  forall s t,
    In t (parse_expression s) ->
    token_shape t = true
    /\ accepts_operand t
       = Str.forallb Char.isdecimal t
         && (String.length t <=? int_max_str_digits)
         || Str.forallb Char.isalpha t
    /\ is_operator t = starts_in Char.isop t.
Proof.
  intros s t Hin. pose proof (parse_expression_shape s t Hin) as Hs.
  split; [exact Hs |].
  destruct t as [| c w]; [discriminate |]. cbn [token_shape] in Hs.
  cbn [starts_in].
  apply orb_prop in Hs as [Hs | Hs]; [apply orb_prop in Hs as [Hs | Hs] |].
  - apply andb_prop in Hs as [Hc Hw]. split.
    + unfold accepts_operand. rewrite (digits_are_number c w Hc Hw).
      unfold Str.isalpha. cbn [Str.forallb]. rewrite Hc, Hw. reflexivity.
    + rewrite (isword_not_op c (isdecimal_isword c Hc)).
      destruct (is_operator (String c w)) eqn:E; [| reflexivity].
      destruct (is_operator_cases _ E) as [H | [H | [H | H]]];
        inversion H; subst; discriminate.
  - apply andb_prop in Hs as [Hc Hw]. apply andb_prop in Hc as [Hc Hd].
    apply negb_true_iff in Hd. split.
    + unfold accepts_operand. rewrite (word_token_not_number c w Hc Hd).
      cbn [Str.forallb orb andb Str.isalpha]. rewrite Hd. reflexivity.
    + rewrite (isword_not_op c Hc).
      destruct (is_operator (String c w)) eqn:E; [| reflexivity].
      destruct (is_operator_cases _ E) as [H | [H | [H | H]]];
        inversion H; subst; discriminate.
  - apply andb_prop in Hs as [Hc Hw]. apply String.eqb_eq in Hw. subst w.
    pose proof (isop_not_word c Hc) as Hnw. split.
    + assert (Char.isdecimal c = false) as Hd.
      { destruct (Char.isdecimal c) eqn:E; [| reflexivity].
        apply isdecimal_isword in E. congruence. }
      assert (Char.isalpha c = false) as Hal.
      { destruct (Char.isalpha c) eqn:E; [| reflexivity].
        apply isalpha_isword' in E. congruence. }
      cbn [Str.forallb]. rewrite Hd, Hal. cbn [andb orb].
      destruct (accepts_operand (String c EmptyString)) eqn:E; [| reflexivity].
      unfold accepts_operand in E. apply orb_prop in E as [E | E].
      * unfold is_number in E. apply andb_prop in E as [E _].
        unfold int_syntax in E. cbn [Str.drop_while] in E.
        destruct (Char.int_space c); [discriminate |].
        destruct (Ascii.eqb c "+" || Ascii.eqb c "-"); [discriminate |].
        cbn [int_digits] in E. rewrite Hd in E. discriminate.
      * unfold Str.isalpha in E. cbn [Str.forallb] in E.
        rewrite Hal in E. discriminate.
    + rewrite Hc. apply isop_token_is_operator, Hc.
Qed.

Lemma X8_token_kinds_witness :
  token_shape "a1" = true
  /\ accepts_operand "a1"
     = Str.forallb Char.isdecimal "a1"
       && (String.length "a1" <=? int_max_str_digits)
       || Str.forallb Char.isalpha "a1"
  /\ is_operator "a1" = starts_in Char.isop "a1".
Proof.
  apply (X8_token_kinds "7 * a1"%string "a1"%string).
  vm_compute. tauto.
Defined.

(** ** The instructions, one by one *)

Lemma chain_nth k :
  forall rest c acc,
    alternates rest = true -> 2 * k + 1 < List.length rest ->
    nth_error (chain c acc rest) (2 * k)
    = Some (reg_name (c + 2 * k) ++ " <- " ++ item rest (2 * k + 1))%string
    /\ nth_error (chain c acc rest) (2 * k + 1)
       = Some (reg_name (c + 2 * k + 1) ++ " <- "
                 ++ match k with
                    | 0 => acc
                    | S _ => reg_name (c + 2 * k - 1)
                    end
                 ++ " " ++ item rest (2 * k) ++ " "
                 ++ reg_name (c + 2 * k))%string.
Proof.
  induction k as [| k IH]; intros rest c acc Halt Hlen;
    destruct rest as [| op [| t rest2]]; simpl in Hlen; try lia.
  - cbn [Nat.mul Nat.add chain nth_error item nth].
    rewrite !Nat.add_0_r. split; reflexivity.
  - cbn [alternates] in Halt. apply andb_prop in Halt as [_ Halt].
    destruct (IH rest2 (c + 2) (reg_name (c + 1)) Halt ltac:(lia)) as [H1 H2].
    replace (2 * S k) with (S (S (2 * k))) by lia.
    cbn [chain Nat.add nth_error].
    change (item (op :: t :: rest2) (S (S ?n))) with (item rest2 n).
    replace (c + S (S (2 * k))) with (c + 2 + 2 * k) by lia.
    rewrite H1, H2. split; [reflexivity |].
    destruct k as [| k]; [| reflexivity].
    replace (c + 2 + 2 * 0 - 1) with (c + 1) by lia. reflexivity.
Qed.

(** X9. The instructions by position.  For a successful translation of
    three or more tokens [t0 op1 t1 op2 t2 ...]: the first instruction
    loads [t0] into [R1]; for every [k >= 1] the instruction at index
    [2k-1] loads the operand [tk] into [R2k] and the instruction at index
    [2k] combines the previous result [R2k-1] with [R2k] under the operator
    [opk], in this order, into [R2k+1]; the last instruction stores the
    last result into the variable.  Operators are applied strictly from
    left to right, whatever they are. *)
Theorem X9_instructions_by_position :
  forall self expression instrs self',
    convert_to_rtl self expression = ((instrs, EmptyString), self') ->
    let tokens := rhs_tokens expression in
    3 <= List.length tokens ->
    nth_error instrs 0 = Some (reg_name 1 ++ " <- " ++ item tokens 0)%string
    /\ (forall k,
           1 <= k -> 2 * k < List.length tokens ->
           nth_error instrs (2 * k - 1)
           = Some (reg_name (2 * k) ++ " <- " ++ item tokens (2 * k))%string
           /\ nth_error instrs (2 * k)
              = Some (reg_name (2 * k + 1) ++ " <- " ++ reg_name (2 * k - 1)
                        ++ " " ++ item tokens (2 * k - 1) ++ " "
                        ++ reg_name (2 * k))%string)
    /\ nth_error instrs (List.length tokens)
       = Some (lhs_variable expression ++ " <- "
                 ++ reg_name (List.length tokens))%string
    /\ List.length instrs = List.length tokens + 1.
Proof.
  intros self expression instrs self' H tokens Hlen. subst tokens.
  apply convert_to_rtl_success in H as (_ & Hw & -> & _).
  destruct (rhs_tokens expression) as [| t0 [| op rest]];
    simpl in Hlen; try lia.
  cbn [well_formed] in Hw. apply andb_prop in Hw as [_ Halt].
  pose proof (chain_length 2 (reg_name 1) (op :: rest) Halt) as Hcl.
  unfold emitted. split; [reflexivity | split; [| split]].
  - intros k Hk Hk2. destruct k as [| k]; [lia |].
    destruct (chain_nth k (op :: rest) 2 (reg_name 1) Halt) as [H1 H2];
      [simpl in *; lia |].
    replace (2 * S k - 1) with (S (2 * k)) by lia.
    replace (2 * S k) with (S (2 * k + 1)) by lia.
    cbn [nth_error].
    rewrite !nth_error_app1 by (rewrite Hcl; simpl in *; lia).
    rewrite H1, H2.
    change (item (t0 :: op :: rest) (S ?n)) with (item (op :: rest) n).
    replace (S (2 * k + 1) - 1) with (2 * k + 1) by lia.
    replace (2 + 2 * k) with (S (2 * k + 1)) by lia.
    replace (S (2 * k + 1) + 1) with (S (2 * k + 1 + 1)) by lia.
    replace (2 + 2 * k + 1) with (S (2 * k + 1 + 1)) by lia.
    split; [reflexivity |].
    destruct k as [| k]; [reflexivity |].
    replace (S (2 * S k + 1) - 1) with (S (2 * S k)) by lia. reflexivity.
  - change (List.length (t0 :: op :: rest))
      with (S (List.length (op :: rest))).
    cbn [nth_error]. rewrite nth_error_app2 by (rewrite Hcl; lia).
    rewrite Hcl, Nat.sub_diag. cbn [nth_error].
    unfold last_register.
    replace (2 + List.length (op :: rest) - 1)
      with (S (List.length (op :: rest))) by lia.
    reflexivity.
  - cbn [List.length]. rewrite length_app, Hcl. simpl. lia.
Qed.

Lemma X9_instructions_by_position_witness :
  nth_error (fst (fst (convert_to_rtl init "r = a + b - 3"))) 3
  = Some ("R4 <- 3"%string)
  /\ nth_error (fst (fst (convert_to_rtl init "r = a + b - 3"))) 4
     = Some ("R5 <- R3 - R4"%string).
Proof.
  destruct (X9_instructions_by_position init "r = a + b - 3"
              (fst (fst (convert_to_rtl init "r = a + b - 3")))
              (snd (convert_to_rtl init "r = a + b - 3")) eq_refl)
    as (_ & H & _).
  - vm_compute. lia.
  - apply (H 2); vm_compute; lia.
Defined.

(** X10. The converter after a successful call.  Its instruction list is
    the list returned and its counter equals the number of instructions;
    every instruction but the last writes a register, [R1], [R2], ... in
    the order of emission, so [2n - 1] registers serve [n >= 2] operands
    and none serves a single operand. *)
Theorem X10_converter_after_success :
  forall self expression instrs self',
    convert_to_rtl self expression = ((instrs, EmptyString), self') ->
    rtl_instructions self' = instrs
    /\ register_counter self' = List.length instrs
    /\ map instr_dest (removelast instrs)
       = map reg_name (seq 1 (List.length instrs - 1)).
Proof.
  intros self expression instrs self' H.
  destruct (convert_to_rtl_state self expression)
    as (regs & tail & Hb & Hc & Hd & Ht).
  rewrite H in Hb, Hc. cbn [snd] in Hb, Hc.
  apply convert_to_rtl_success in H as (_ & _ & _ & ->).
  cbn [rtl_instructions register_counter] in *.
  split; [reflexivity | split; [reflexivity |]].
  assert (List.length instrs = List.length regs + List.length tail) as Hl
    by (rewrite Hb, length_app; reflexivity).
  destruct tail as [| x [| y tail]]; simpl in Ht, Hl; try lia.
  rewrite Hb, removelast_last, length_app. simpl.
  replace (List.length regs + 1 - 1) with (List.length regs) by lia.
  exact Hd.
Qed.

Lemma X10_converter_after_success_witness :
  map instr_dest
    (removelast ["R1 <- 6"; "R2 <- 9"; "R3 <- R1 + R2"; "x <- R3"]%string)
  = map reg_name (seq 1 3).
Proof.
  apply (X10_converter_after_success init "x = 6 + 9"
           ["R1 <- 6"; "R2 <- 9"; "R3 <- R1 + R2"; "x <- R3"]%string
           (mkRTLConverter 4
              ["R1 <- 6"; "R2 <- 9"; "R3 <- R1 + R2"; "x <- R3"]%string)).
  reflexivity.
Defined.

(** ** White space around the two sides *)

Lemma lstrip_pad (w s : string) :
  Str.forallb Char.isspace w = true -> Str.lstrip (w ++ s) = Str.lstrip s.
Proof.
  unfold Str.lstrip. induction w as [| c w IH]; [reflexivity |].
  cbn [Str.forallb append Str.drop_while]. intros H.
  apply andb_prop in H as [Hc Hw]. rewrite Hc. exact (IH Hw).
Qed.

Lemma strip_pad (w1 s w2 : string) :
  Str.forallb Char.isspace w1 = true -> Str.forallb Char.isspace w2 = true ->
  Str.strip (w1 ++ s ++ w2) = Str.strip s.
Proof.
  intros H1 H2. unfold Str.strip. rewrite lstrip_pad by assumption.
  unfold Str.lstrip. destruct (Str.forallb Char.isspace s) eqn:Es.
  - rewrite (drop_while_all _ s Es).
    rewrite drop_while_all; [reflexivity |].
    rewrite forallb_append, Es, H2. reflexivity.
  - rewrite drop_while_append by (right; exact Es).
    apply rstrip_pad, H2.
Qed.

Lemma isspace_not_assignment :
  forall c, Char.isspace c = true -> Ascii.eqb "=" c = false.
Proof. char_fact. Qed.

Lemma space_no_assignment (w : string) :
  Str.forallb Char.isspace w = true -> Str.contains "=" w = false.
Proof.
  apply forallb_existsb_false, isspace_not_assignment.
Qed.

(** X11. White space around the variable and around the right-hand side
    does not count: padding the two sides of the [=] with white space of
    any kind gives the same result, and leaves the converter in the same
    state, as the expression without it. *)
Theorem X11_padding_is_ignored :
  forall self w1 lhs w2 w3 rhs w4,
    Str.forallb Char.isspace w1 = true ->
    Str.forallb Char.isspace w2 = true ->
    Str.forallb Char.isspace w3 = true ->
    Str.forallb Char.isspace w4 = true ->
    Str.contains "=" lhs = false ->
    Str.contains "=" rhs = false ->
    convert_to_rtl self ((w1 ++ lhs ++ w2) ++ "=" ++ (w3 ++ rhs ++ w4))
    = convert_to_rtl self (lhs ++ "=" ++ rhs).
Proof.
  intros self w1 lhs w2 w3 rhs w4 H1 H2 H3 H4 Hl Hr.
  assert (Str.contains "=" (w1 ++ lhs ++ w2) = false) as Hl'.
  { rewrite !contains_append, Hl.
    rewrite (space_no_assignment w1 H1), (space_no_assignment w2 H2).
    reflexivity. }
  assert (Str.contains "=" (w3 ++ rhs ++ w4) = false) as Hr'.
  { rewrite !contains_append, Hr.
    rewrite (space_no_assignment w3 H3), (space_no_assignment w4 H4).
    reflexivity. }
  change ((w1 ++ lhs ++ w2) ++ "=" ++ (w3 ++ rhs ++ w4))%string
    with ((w1 ++ lhs ++ w2) ++ String "=" (w3 ++ rhs ++ w4))%string.
  change (lhs ++ "=" ++ rhs)%string with (lhs ++ String "=" rhs)%string.
  apply convert_to_rtl_same.
  - rewrite !contains_append, !contains_cons, Ascii.eqb_refl.
    cbn [orb]. rewrite !orb_true_r. reflexivity.
  - rewrite !split_assignment by assumption. reflexivity.
  - unfold lhs_variable. rewrite !split_assignment by assumption.
    cbn [item nth]. apply strip_pad; assumption.
  - unfold rhs_tokens. rewrite !split_assignment by assumption.
    cbn [item nth]. rewrite strip_pad by assumption. reflexivity.
Qed.

Lemma X11_padding_is_ignored_witness :
  convert_to_rtl init
    ((String "009" " " ++ "x" ++ "  ") ++ "=" ++ (" " ++ "6+9" ++ String "010" ""))
  = convert_to_rtl init ("x" ++ "=" ++ "6+9").
Proof.
  apply (X11_padding_is_ignored init (String "009" " ") "x" "  " " " "6+9"
           (String "010" "")); reflexivity.
Defined.

(** ** The page *)

Lemma join_split sep (ls : list string) :
  ls <> [] ->
  Forall (fun p => Str.contains sep p = false) ls ->
  Str.split sep (String.concat (String sep EmptyString) ls) = ls.
Proof.
  induction ls as [| x ls IH]; [congruence |]. intros _ H.
  inversion H as [| y l Hx Hls]; subst.
  destruct ls as [| y ls].
  - cbn [String.concat]. apply split_no_sep, Hx.
  - rewrite concat_cons by discriminate.
    change (x ++ String sep "" ++ ?r)%string with (x ++ String sep r)%string.
    rewrite split_at_sep by assumption.
    rewrite IH; [reflexivity | discriminate | exact Hls].
Qed.

Lemma numbered_from_nth instrs :
  forall i k,
    nth_error (numbered_from i instrs) k
    = option_map (fun ins => (Str.of_nat (i + k) ++ ". " ++ ins)%string)
        (nth_error instrs k).
Proof.
  induction instrs as [| x instrs IH]; intros i [| k]; try reflexivity.
  - cbn [numbered_from nth_error option_map]. rewrite Nat.add_0_r. reflexivity.
  - cbn [numbered_from nth_error]. rewrite IH.
    replace (S i + k) with (i + S k) by lia. reflexivity.
Qed.

Lemma numbered_from_length instrs :
  forall i, List.length (numbered_from i instrs) = List.length instrs.
Proof.
  induction instrs as [| x instrs IH]; intros i; [reflexivity |].
  cbn [numbered_from List.length]. rewrite IH. reflexivity.
Qed.

Lemma token_not_newline :
  forall c, token_char c = true -> Ascii.eqb newline c = false.
Proof. char_fact. Qed.

Lemma isdecimal_not_newline :
  forall c, Char.isdecimal c = true -> Ascii.eqb newline c = false.
Proof. char_fact. Qed.

Lemma ident_part_not_newline :
  forall c, Char.ident_part c = true -> Ascii.eqb newline c = false.
Proof. char_fact. Qed.

Lemma of_nat_no_newline n : Str.contains newline (Str.of_nat n) = false.
Proof.
  apply (forallb_existsb_false Char.isdecimal);
    [apply isdecimal_not_newline | apply of_nat_decimal].
Qed.

Lemma reg_name_no_newline n : Str.contains newline (reg_name n) = false.
Proof.
  unfold reg_name.
  change ("R" ++ Str.of_nat n)%string with (String "R" (Str.of_nat n)).
  rewrite contains_cons, of_nat_no_newline. reflexivity.
Qed.

Lemma load_no_newline dest src :
  Str.contains newline dest = false -> Str.contains newline src = false ->
  Str.contains newline (dest ++ " <- " ++ src) = false.
Proof.
  intros Hd Hs. rewrite !contains_append, Hd, Hs. reflexivity.
Qed.

Lemma is_operator_no_newline op :
  is_operator op = true -> Str.contains newline op = false.
Proof.
  intros H. destruct (is_operator_cases op H) as [-> | [-> | [-> | ->]]];
    reflexivity.
Qed.

Lemma chain_no_newline rest :
  forall c acc,
    alternates rest = true ->
    (forall t, In t rest -> Str.contains newline t = false) ->
    Str.contains newline acc = false ->
    Forall (fun ins => Str.contains newline ins = false) (chain c acc rest).
Proof.
  induction rest as [rest IH] using (well_founded_induction
    (wf_inverse_image _ nat _ (@List.length string) lt_wf)).
  intros c acc Halt Hnl Hacc.
  destruct rest as [| op [| t rest2]]; try discriminate; [constructor |].
  cbn [alternates] in Halt. apply andb_prop in Halt as [_ Halt].
  cbn [chain]. constructor; [| constructor].
  - apply load_no_newline; [apply reg_name_no_newline |].
    apply Hnl. simpl. auto.
  - apply load_no_newline; [apply reg_name_no_newline |].
    rewrite !contains_append, Hacc, reg_name_no_newline.
    rewrite (Hnl op) by (simpl; auto). reflexivity.
  - apply IH; [simpl; lia | exact Halt | | apply reg_name_no_newline].
    intros x Hx. apply Hnl. simpl. auto.
Qed.

Lemma emitted_no_newline variable tokens :
  well_formed tokens = true ->
  Str.contains newline variable = false ->
  (forall t, In t tokens -> Str.contains newline t = false) ->
  Forall (fun ins => Str.contains newline ins = false)
    (emitted variable tokens).
Proof.
  intros Hw Hv Hnl. destruct tokens as [| t0 [| op rest]]; [discriminate | |].
  - repeat constructor. apply load_no_newline; [exact Hv |].
    apply Hnl. simpl. auto.
  - cbn [well_formed] in Hw. apply andb_prop in Hw as [_ Halt].
    unfold emitted. constructor.
    + apply load_no_newline; [apply reg_name_no_newline |].
      apply Hnl. simpl. auto.
    + apply Forall_app. split.
      * apply chain_no_newline; [exact Halt | | apply reg_name_no_newline].
        intros x Hx. apply Hnl. right. exact Hx.
      * repeat constructor. apply load_no_newline; [exact Hv |].
        apply reg_name_no_newline.
Qed.

Lemma numbered_from_no_newline instrs :
  forall i,
    Forall (fun ins => Str.contains newline ins = false) instrs ->
    Forall (fun line => Str.contains newline line = false)
      (numbered_from i instrs).
Proof.
  induction instrs as [| x instrs IH]; intros i H; [constructor |].
  inversion H as [| y l Hx Hl]; subst. cbn [numbered_from]. constructor.
  - rewrite !contains_append, of_nat_no_newline, Hx. reflexivity.
  - apply IH, Hl.
Qed.

Lemma on_convert_result expression lines data name :
  on_convert expression = ShowResult lines data name ->
  exists instrs,
    fst (convert_to_rtl init expression) = (instrs, EmptyString)
    /\ lines = numbered instrs /\ data = rtl_text instrs
    /\ name = file_name expression.
Proof.
  unfold on_convert. cbv zeta.
  destruct (fst (convert_to_rtl init expression)) as [instrs error].
  destruct error; [| discriminate].
  intros H. inversion H; subst. exists instrs. auto.
Qed.

Lemma success_variable_identifier self expression instrs :
  fst (convert_to_rtl self expression) = (instrs, EmptyString) ->
  assignment_ok expression = true
  /\ well_formed (rhs_tokens expression) = true
  /\ instrs = emitted (lhs_variable expression) (rhs_tokens expression)
  /\ Str.forallb Char.ident_part (lhs_variable expression) = true.
Proof.
  intros H.
  destruct (convert_to_rtl self expression) as [[l e] s] eqn:E.
  cbn [fst] in H. inversion H; subst.
  apply convert_to_rtl_success in E as (Ha & Hw & Hi & _).
  repeat split; auto.
  pose proof Ha as Hm. unfold assignment_ok in Hm.
  apply andb_prop in Hm as [_ Hm]. unfold lhs_variable in *.
  rewrite match_identifier_strip in Hm. apply andb_prop in Hm as [_ Hm].
  exact Hm.
Qed.

(** X12. The name of the download.  Whenever the page offers the download,
    its file name is [rtl_instructions_], the variable, [.txt], and is made
    of letters, digits, underscores and the one dot only: it holds no path
    separator and no white space. *)
Theorem X12_download_name :
  forall expression lines data name,
    on_convert expression = ShowResult lines data name ->
    name = ("rtl_instructions_" ++ lhs_variable expression ++ ".txt")%string
    /\ Str.forallb (fun c => Char.ident_part c || Ascii.eqb c ".") name = true
    /\ count_char "." name = 1.
Proof.
  intros expression lines data name H.
  apply on_convert_result in H as (instrs & Hc & _ & _ & ->).
  apply success_variable_identifier in Hc as (_ & _ & _ & Hv).
  unfold file_name. fold (lhs_variable expression).
  split; [reflexivity | split].
  - rewrite !forallb_append.
    rewrite (forallb_impl Char.ident_part _ (lhs_variable expression))
      by (try exact Hv; intros c ->; reflexivity).
    reflexivity.
  - assert (forall a b, count_char "." (a ++ b)
                        = count_char "." a + count_char "." b) as Happ.
    { induction a as [| x a IH]; intros b; [reflexivity |].
      cbn [append count_char]. rewrite IH. lia. }
    assert (forall s, Str.forallb Char.ident_part s = true ->
                      count_char "." s = 0) as Hz.
    { induction s as [| x s IH]; [reflexivity |].
      cbn [Str.forallb count_char]. intros Hs.
      apply andb_prop in Hs as [Hx Hs]. rewrite (IH Hs).
      assert (forall c, Char.ident_part c = true -> Ascii.eqb c "." = false)
        as Hf by char_fact.
      rewrite (Hf x Hx). reflexivity. }
    rewrite !Happ, (Hz _ Hv). reflexivity.
Qed.

Lemma X12_download_name_witness :
  "rtl_instructions_x.txt"%string
  = ("rtl_instructions_" ++ lhs_variable "x = 6 + 9" ++ ".txt")%string
  /\ Str.forallb (fun c => Char.ident_part c || Ascii.eqb c ".")
       "rtl_instructions_x.txt" = true
  /\ count_char "." "rtl_instructions_x.txt" = 1.
Proof.
  apply (X12_download_name "x = 6 + 9"
           (numbered (fst (fst (convert_to_rtl init "x = 6 + 9"))))
           (rtl_text (fst (fst (convert_to_rtl init "x = 6 + 9"))))).
  reflexivity.
Defined.

(** X13. The lines of the download.  Whenever the page shows a result, it
    shows one line for each instruction, the line at index [k] being the
    number [k + 1], a dot, a space and the instruction; and the downloaded
    text, cut at its newlines, gives these lines back: no instruction runs
    over a line. *)
Theorem X13_download_lines :
  forall expression lines data name,
    on_convert expression = ShowResult lines data name ->
    exists instrs,
      fst (convert_to_rtl init expression) = (instrs, EmptyString)
      /\ List.length lines = List.length instrs
      /\ (forall k ins,
             nth_error instrs k = Some ins ->
             nth_error lines k
             = Some (Str.of_nat (k + 1) ++ ". " ++ ins)%string)
      /\ Str.split newline data = lines.
Proof.
  intros expression lines data name H.
  apply on_convert_result in H as (instrs & Hc & -> & -> & _).
  exists instrs. split; [exact Hc |].
  split; [apply numbered_from_length | split].
  - intros k ins Hk. unfold numbered. rewrite numbered_from_nth, Hk.
    cbn [option_map]. replace (1 + k) with (k + 1) by lia. reflexivity.
  - apply success_variable_identifier in Hc as (Ha & Hw & -> & Hv).
    unfold rtl_text. apply join_split.
    + unfold numbered.
      destruct (rhs_tokens expression) as [| t0 [| op rest]];
        [discriminate | discriminate | discriminate].
    + apply numbered_from_no_newline, emitted_no_newline.
      * exact Hw.
      * apply (forallb_existsb_false Char.ident_part);
          [apply ident_part_not_newline | exact Hv].
      * intros t Ht.
        apply (forallb_existsb_false token_char);
          [apply token_not_newline |].
        apply token_shape_chars, (parse_expression_shape _ _ Ht).
Qed.

Lemma X13_download_lines_witness :
  exists instrs,
    fst (convert_to_rtl init "x = 5") = (instrs, EmptyString)
    /\ List.length ["1. x <- 5"%string] = List.length instrs
    /\ (forall k ins,
           nth_error instrs k = Some ins ->
           nth_error ["1. x <- 5"%string] k
           = Some (Str.of_nat (k + 1) ++ ". " ++ ins)%string)
    /\ Str.split newline "1. x <- 5" = ["1. x <- 5"%string].
Proof.
  apply (X13_download_lines "x = 5" ["1. x <- 5"%string] "1. x <- 5"%string
           "rtl_instructions_x.txt"%string).
  reflexivity.
Defined.

(** ** One more operation *)

Lemma alternates_app (a b : list string) :
  alternates a = true -> alternates (a ++ b) = alternates b.
Proof.
  induction a as [a IH] using (well_founded_induction
    (wf_inverse_image _ nat _ (@List.length string) lt_wf)).
  intros H. destruct a as [| op [| t a2]]; try discriminate; [reflexivity |].
  cbn [alternates] in H.
  apply andb_prop in H as [H H2]. apply andb_prop in H as [Hop Ht].
  cbn [app alternates]. rewrite Hop, Ht. cbn [andb].
  apply IH; [simpl; lia | exact H2].
Qed.

Lemma last_register_app c acc (a b : list string) :
  b <> [] ->
  last_register c acc (a ++ b)
  = last_register (c + List.length a) (last_register c acc a) b.
Proof.
  intros Hb. destruct b as [| x b]; [congruence |].
  unfold last_register at 1 2. destruct a as [| y a].
  - cbn [app List.length]. rewrite Nat.add_0_r. reflexivity.
  - cbn [app List.length]. f_equal. rewrite length_app. simpl. lia.
Qed.

Lemma chain_app (a b : list string) :
  forall c acc,
    alternates a = true ->
    chain c acc (a ++ b)
    = chain c acc a
      ++ chain (c + List.length a) (last_register c acc a) b.
Proof.
  induction a as [a IH] using (well_founded_induction
    (wf_inverse_image _ nat _ (@List.length string) lt_wf)).
  intros c acc H. destruct a as [| op [| t a2]]; try discriminate.
  - cbn [app chain List.length last_register]. rewrite Nat.add_0_r. reflexivity.
  - cbn [alternates] in H. apply andb_prop in H as [_ H2].
    cbn [app chain]. rewrite (IH a2) by (simpl; auto; lia).
    replace (c + List.length (op :: t :: a2)) with (c + 2 + List.length a2)
      by (simpl; lia).
    replace (last_register c acc (op :: t :: a2))
      with (last_register (c + 2) (reg_name (c + 1)) a2)
      by (unfold last_register; destruct a2 as [| y a3]; simpl; f_equal; lia).
    reflexivity.
Qed.

Lemma isdecimal_not_assignment :
  forall c, Char.isdecimal c = true -> Ascii.eqb "=" c = false.
Proof. char_fact. Qed.

Lemma isalpha_not_assignment :
  forall c, Char.isalpha c = true -> Ascii.eqb "=" c = false.
Proof. char_fact. Qed.

Lemma isalpha_token_char c : Char.isalpha c = true -> token_char c = true.
Proof. intros H. apply isword_token_char, isalpha_isword', H. Qed.

(** An operand on its own is one token. *)
Lemma findall_tokens_operand t :
  t <> EmptyString ->
  Str.forallb Char.isdecimal t = true \/ Str.forallb Char.isalpha t = true ->
  findall_tokens t = [t].
Proof.
  destruct t as [| c w]; [congruence |]. intros _ H.
  rewrite findall_tokens_equation_2. cbn [Str.forallb] in H.
  destruct H as [H | H]; apply andb_prop in H as [Hc Hw].
  - rewrite Hc, (take_while_all _ w Hw), (drop_while_all _ w Hw). reflexivity.
  - rewrite (isalpha_not_decimal c Hc), (isalpha_isword' c Hc).
    pose proof (forallb_impl _ _ w isalpha_isword' Hw) as Hw'.
    rewrite (take_while_all _ w Hw'), (drop_while_all _ w Hw'). reflexivity.
Qed.

Lemma operand_accepted t :
  t <> EmptyString ->
  (Str.forallb Char.isdecimal t = true
   /\ String.length t <= int_max_str_digits)
  \/ Str.forallb Char.isalpha t = true ->
  accepts_operand t = true.
Proof.
  destruct t as [| c w]; [congruence |]. intros _ [[H Hlen] | H].
  - cbn [Str.forallb] in H. apply andb_prop in H as [Hc Hw].
    unfold accepts_operand. rewrite (digits_are_number c w Hc Hw).
    apply Nat.leb_le in Hlen. rewrite Hlen. reflexivity.
  - unfold accepts_operand, Str.isalpha. rewrite H. apply orb_true_r.
Qed.

Lemma operand_chars p t :
  (forall c, Char.isdecimal c = true -> p c = true) ->
  (forall c, Char.isalpha c = true -> p c = true) ->
  Str.forallb Char.isdecimal t = true \/ Str.forallb Char.isalpha t = true ->
  Str.forallb p t = true.
Proof.
  intros Hd Ha [H | H];
    [apply (forallb_impl Char.isdecimal) | apply (forallb_impl Char.isalpha)];
    assumption.
Qed.

(** An expression with one [=] is its two sides around it. *)
Lemma one_assignment_sides expression :
  List.length (Str.split "=" expression) = 2 ->
  exists lhs rhs,
    expression = (lhs ++ String "=" rhs)%string
    /\ Str.contains "=" lhs = false /\ Str.contains "=" rhs = false.
Proof.
  intros H. pose proof (split_join "=" expression) as Hj.
  pose proof (split_parts_no_sep "=" expression) as Hp.
  destruct (Str.split "=" expression) as [| l [| r [| x ps]]];
    try discriminate.
  exists l, r. cbn [String.concat] in Hj.
  inversion Hp as [| a b Hl Hr']; subst. inversion Hr' as [| a' b' Hr _]; subst.
  repeat split; auto.
Qed.

(** The tokens of a right-hand side followed by an operator and an
    operand. *)
Lemma parse_expression_extend rhs op t :
  is_operator op = true -> t <> EmptyString ->
  Str.forallb Char.isdecimal t = true \/ Str.forallb Char.isalpha t = true ->
  parse_expression (rhs ++ op ++ t) = parse_expression rhs ++ [op; t].
Proof.
  intros Hop Hne Ht. unfold parse_expression.
  assert (Str.forallb token_char t = true) as Htc
    by (apply operand_chars;
        [apply isdecimal_token_char | apply isalpha_token_char | exact Ht]).
  assert (exists o, op = String o EmptyString /\ Char.isop o = true)
    as (o & -> & Ho).
  { destruct (is_operator_cases op Hop) as [-> | [-> | [-> | ->]]];
      eexists; split; reflexivity. }
  rewrite remove_spaces_append.
  rewrite (remove_spaces_id token_char (String o EmptyString ++ t))
    by (try apply token_not_space; cbn [append Str.forallb];
        unfold token_char at 1; rewrite Ho, orb_true_r; exact Htc).
  rewrite findall_tokens_append.
  - f_equal. cbn [append]. rewrite findall_tokens_equation_2.
    assert (Char.isword o = false) as Hw by (apply isop_not_word, Ho).
    assert (Char.isdecimal o = false) as Hd.
    { destruct (Char.isdecimal o) eqn:E; [| reflexivity].
      apply isdecimal_isword in E. congruence. }
    rewrite Hd, Hw, Ho, (findall_tokens_operand t Hne Ht). reflexivity.
  - cbn [append starts_in]. rewrite (isop_not_word o Ho). apply andb_false_r.
Qed.

(** X14. One more operation.  When an expression with two or more operands
    translates, the expression followed by an operator and an operand (all
    letters, or all digits and at most 4300 of them) translates too: the
    instructions are those of the first without its final store, then the
    load of the new operand into the next register, the operation on the
    previous result and that register, and the store of the new result
    into the variable. *)
Theorem X14_append_operation :
  forall self expression instrs self' op t,
    convert_to_rtl self expression = ((instrs, EmptyString), self') ->
    3 <= List.length (rhs_tokens expression) ->
    is_operator op = true ->
    t <> EmptyString ->
    (Str.forallb Char.isdecimal t = true
     /\ String.length t <= int_max_str_digits)
    \/ Str.forallb Char.isalpha t = true ->
    let c := List.length instrs in
    fst (convert_to_rtl self (expression ++ op ++ t))
    = (removelast instrs
       ++ [(reg_name c ++ " <- " ++ t)%string;
           (reg_name (c + 1) ++ " <- " ++ reg_name (c - 1)
              ++ " " ++ op ++ " " ++ reg_name c)%string;
           (lhs_variable expression ++ " <- " ++ reg_name (c + 1))%string],
       EmptyString).
Proof.
  intros self expression instrs self' op t H Hlen Hop Hne Hacc c. subst c.
  assert (Str.forallb Char.isdecimal t = true
          \/ Str.forallb Char.isalpha t = true) as Ht
    by (destruct Hacc as [[Hd _] | Ha]; auto).
  apply convert_to_rtl_success in H as (Ha & Hw & -> & _).
  pose proof Ha as Ha'. unfold assignment_ok in Ha'.
  apply andb_prop in Ha' as [Ha' Hid]. apply andb_prop in Ha' as [_ Hl].
  apply Nat.eqb_eq in Hl.
  destruct (one_assignment_sides expression Hl) as (lhs & rhs & He & Hnl & Hnr).
  assert (Str.contains "=" t = false) as Hnt.
  { apply (forallb_existsb_false (fun c => Char.isdecimal c || Char.isalpha c)).
    - intros x Hx. apply orb_prop in Hx as [Hx | Hx];
        [apply isdecimal_not_assignment | apply isalpha_not_assignment];
        exact Hx.
    - apply operand_chars; [intros x -> | intros x -> | exact Ht];
        [reflexivity | apply orb_true_r]. }
  assert (Str.contains "=" (rhs ++ op ++ t) = false) as Hnr'.
  { rewrite !contains_append, Hnr, Hnt.
    destruct (is_operator_cases op Hop) as [-> | [-> | [-> | ->]]];
      reflexivity. }
  assert ((expression ++ op ++ t)%string
          = (lhs ++ String "=" (rhs ++ op ++ t))%string) as He'.
  { rewrite He, append_assoc. reflexivity. }
  assert (lhs_variable (expression ++ op ++ t) = lhs_variable expression)
    as Hv.
  { unfold lhs_variable. rewrite He'. rewrite He.
    rewrite !split_assignment by assumption. reflexivity. }
  assert (rhs_tokens (expression ++ op ++ t)
          = rhs_tokens expression ++ [op; t]) as Hts.
  { unfold rhs_tokens. rewrite He'. rewrite He.
    rewrite !split_assignment by assumption. cbn [item nth].
    rewrite !parse_expression_strip.
    apply parse_expression_extend; assumption. }
  assert (assignment_ok (expression ++ op ++ t) = true) as Hok.
  { unfold assignment_ok. rewrite Hv, Hid. rewrite He'.
    rewrite split_assignment by assumption.
    rewrite contains_append, contains_cons, Ascii.eqb_refl.
    cbn [orb]. rewrite orb_true_r. reflexivity. }
  destruct (rhs_tokens expression) as [| t0 [| op1 rest]] eqn:Et;
    simpl in Hlen; try lia.
  cbn [well_formed] in Hw. apply andb_prop in Hw as [H0 Halt].
  assert (well_formed (rhs_tokens (expression ++ op ++ t)) = true) as Hw'.
  { rewrite Hts. cbn [app well_formed]. rewrite H0.
    change (op1 :: rest ++ [op; t]) with ((op1 :: rest) ++ [op; t]).
    rewrite alternates_app by assumption.
    cbn [alternates]. rewrite Hop, (operand_accepted t Hne Hacc). reflexivity. }
  rewrite (convert_to_rtl_ok self _ Hok Hw'). cbv zeta. cbn [fst].
  rewrite Hv, Hts. f_equal.
  pose proof (chain_length 2 (reg_name 1) (op1 :: rest) Halt) as Hcl.
  assert (op1 :: rest <> []) as Hr1 by discriminate.
  remember (op1 :: rest) as r1 eqn:Er1.
  set (v := lhs_variable expression).
  assert (forall toks, toks <> [] ->
            emitted v (t0 :: toks)
            = (reg_name 1 ++ " <- " ++ t0)%string
              :: chain 2 (reg_name 1) toks
              ++ [(v ++ " <- " ++ last_register 2 (reg_name 1) toks)%string])
    as Hem by (intros [| x l]; [congruence | reflexivity]).
  cbn [app]. rewrite !Hem by (try assumption; destruct r1; discriminate).
  rewrite chain_app by assumption.
  rewrite last_register_app by discriminate.
  cbn [List.length]. rewrite length_app, Hcl. cbn [List.length].
  change (?x :: ?l ++ [?y]) with ((x :: l) ++ [y]) at 2.
  rewrite removelast_last.
  assert (last_register 2 (reg_name 1) r1
          = reg_name (2 + List.length r1 - 1)) as Hlast
    by (destruct r1; [congruence | reflexivity]).
  rewrite Hlast. cbn [chain last_register List.length].
  replace (S (List.length r1 + 1)) with (2 + List.length r1) by lia.
  replace (2 + List.length r1 + 2 - 1) with (2 + List.length r1 + 1) by lia.
  cbn [app]. f_equal. rewrite <- app_assoc. reflexivity.
Qed.

Lemma X14_append_operation_witness :
  fst (convert_to_rtl init ("x = 6 + 9" ++ "*" ++ "b"))
  = (removelast ["R1 <- 6"; "R2 <- 9"; "R3 <- R1 + R2"; "x <- R3"]%string
     ++ ["R4 <- b"; "R5 <- R3 * R4"; "x <- R5"]%string, EmptyString).
Proof.
  apply (X14_append_operation init "x = 6 + 9"
           ["R1 <- 6"; "R2 <- 9"; "R3 <- R1 + R2"; "x <- R3"]%string
           (mkRTLConverter 4
              ["R1 <- 6"; "R2 <- 9"; "R3 <- R1 + R2"; "x <- R3"]%string)
           "*"%string "b"%string).
  - reflexivity.
  - vm_compute. lia.
  - reflexivity.
  - discriminate.
  - right. reflexivity.
Defined.

(** ** An empty right-hand side *)

Lemma flatten_empty tokens :
  (forall t, In t tokens -> token_shape t = true) ->
  flatten tokens = EmptyString -> tokens = [].
Proof.
  destruct tokens as [| t ts]; [reflexivity |]. intros Hs H.
  specialize (Hs t (or_introl eq_refl)).
  destruct t; [discriminate Hs | discriminate H].
Qed.

Lemma rhs_tokens_flatten lhs rhs :
  Str.contains "=" lhs = false -> Str.contains "=" rhs = false ->
  flatten (rhs_tokens (lhs ++ String "=" rhs)) = Str.filter token_char rhs.
Proof.
  intros Hl Hr. unfold rhs_tokens. rewrite split_assignment by assumption.
  cbn [item nth]. rewrite parse_expression_strip. unfold parse_expression.
  rewrite findall_tokens_flatten. apply filter_token_remove_spaces.
Qed.

(** X15. The empty-expression error.  With a valid variable before a single
    [=], the call reports an empty expression exactly when the text after
    the [=] holds no word character and no operator character: white space
    and punctuation alone, as in [y = ( )], count as empty. *)
Theorem X15_empty_expression :
  forall self lhs rhs,
    Str.contains "=" lhs = false -> Str.contains "=" rhs = false ->
    match_identifier (Str.strip lhs) = true ->
    (fst (convert_to_rtl self (lhs ++ "=" ++ rhs))
     = ([], "Error: Empty expression"%string)
     <-> Str.filter token_char rhs = EmptyString).
Proof.
  intros self lhs rhs Hl Hr Hid.
  change (lhs ++ "=" ++ rhs)%string with (lhs ++ String "=" rhs)%string.
  pose proof (rhs_tokens_flatten lhs rhs Hl Hr) as Hf.
  assert (forall t, In t (rhs_tokens (lhs ++ String "=" rhs)) ->
                    token_shape t = true) as Hs
    by (intros t Ht; apply (parse_expression_shape _ _ Ht)).
  unfold convert_to_rtl.
  rewrite contains_append, contains_cons, Ascii.eqb_refl.
  cbn [orb]. rewrite orb_true_r. cbn [negb].
  fold (lhs_variable (lhs ++ String "=" rhs)).
  fold (rhs_tokens (lhs ++ String "=" rhs)).
  assert (lhs_variable (lhs ++ String "=" rhs) = Str.strip lhs) as Hv
    by (unfold lhs_variable; rewrite split_assignment by assumption;
        reflexivity).
  rewrite Hv, Hid, split_assignment by assumption.
  cbn [List.length Nat.eqb negb].
  destruct (rhs_tokens (lhs ++ String "=" rhs)) as [| t0 [| op rest]] eqn:Et.
  - cbn [List.length Nat.eqb]. rewrite <- Hf. split; reflexivity.
  - cbn [List.length Nat.eqb item nth]. rewrite <- Hf. split.
    + destruct (is_number t0 || Str.isalpha t0); discriminate.
    + intros H. apply flatten_empty in H; [discriminate | exact Hs].
  - cbn [List.length Nat.eqb]. rewrite <- Hf. split.
    + rewrite while_loop_run. destruct (accepts_operand t0); [| discriminate].
      match goal with
      | |- context [pairs_loop ?r ?i ?a ?s] =>
          destruct (pairs_loop r i a s) as [out s' | cur s'] eqn:Ep
      end; [| discriminate].
      apply pairs_loop_messages in Ep as [-> | (j & _ & [-> | ->])];
        discriminate.
    + intros H. apply flatten_empty in H; [discriminate | exact Hs].
Qed.

Lemma X15_empty_expression_witness :
  fst (convert_to_rtl init ("y " ++ "=" ++ " ( ) "))
  = ([], "Error: Empty expression"%string)
  <-> Str.filter token_char " ( ) " = EmptyString.
Proof.
  apply (X15_empty_expression init "y "%string " ( ) "%string); reflexivity.
Defined.

(** ** Literals beyond the limit of [int] *)

Lemma decimal_not_alpha_string c w :
  Char.isdecimal c = true -> Str.isalpha (String c w) = false.
Proof.
  intros Hc. unfold Str.isalpha. cbn [Str.forallb].
  destruct (Char.isalpha c) eqn:E; [| reflexivity].
  apply isalpha_not_decimal in E. congruence.
Qed.

(** X16. A literal of more than 4300 digits is no operand.  [int] refuses
    it with a [ValueError], [is_number] returns [False], and the literal
    alone on the right-hand side of a valid assignment gives the
    invalid-single-token error, whereas one of at most 4300 digits is
    stored into the variable. *)
Theorem X16_digit_limit :
  forall self lhs t,
    Str.contains "=" lhs = false ->
    match_identifier (Str.strip lhs) = true ->
    t <> EmptyString ->
    Str.forallb Char.isdecimal t = true ->
    is_number t = (String.length t <=? int_max_str_digits)
    /\ fst (convert_to_rtl self (lhs ++ "=" ++ t))
       = if String.length t <=? int_max_str_digits
         then ([(Str.strip lhs ++ " <- " ++ t)%string], EmptyString)
         else ([], "Error: Invalid single token"%string).
Proof.
  intros self lhs t Hl Hid Hne Hd.
  destruct t as [| c w]; [congruence |].
  pose proof Hd as Hd'. cbn [Str.forallb] in Hd'.
  apply andb_prop in Hd' as [Hc Hw].
  pose proof (digits_are_number c w Hc Hw) as Hn.
  split; [exact Hn |].
  assert (Str.contains "=" (String c w) = false) as Hnt
    by (apply (forallb_existsb_false Char.isdecimal);
        [apply isdecimal_not_assignment | exact Hd]).
  change (lhs ++ "=" ++ String c w)%string
    with (lhs ++ String "=" (String c w))%string.
  assert (lhs_variable (lhs ++ String "=" (String c w)) = Str.strip lhs) as Hv
    by (unfold lhs_variable; rewrite split_assignment by assumption;
        reflexivity).
  assert (rhs_tokens (lhs ++ String "=" (String c w)) = [String c w]) as Hts.
  { unfold rhs_tokens. rewrite split_assignment by assumption.
    cbn [item nth]. rewrite parse_expression_strip. unfold parse_expression.
    rewrite (remove_spaces_id Char.isdecimal)
      by (try apply isdecimal_not_space; exact Hd).
    apply findall_tokens_operand; [discriminate | left; exact Hd]. }
  assert (assignment_ok (lhs ++ String "=" (String c w)) = true) as Hok.
  { unfold assignment_ok. rewrite Hv, Hid.
    rewrite split_assignment by assumption.
    rewrite contains_append, contains_cons, Ascii.eqb_refl.
    cbn [orb]. rewrite orb_true_r. reflexivity. }
  rewrite (convert_to_rtl_single self _ (String c w) Hok Hts), Hv.
  unfold accepts_operand. rewrite Hn, (decimal_not_alpha_string c w Hc).
  rewrite orb_false_r. reflexivity.
Qed.

Lemma X16_digit_limit_witness :
  is_number (replicate 4301 "1") = false
  /\ fst (convert_to_rtl init ("x " ++ "=" ++ replicate 4301 "1"))
     = ([], "Error: Invalid single token"%string).
Proof.
  assert ((String.length (replicate 4301 "1") <=? int_max_str_digits) = false)
    as Hlim by (vm_compute; reflexivity).
  destruct (X16_digit_limit init "x "%string (replicate 4301 "1"))
    as [H1 H2].
  - reflexivity.
  - reflexivity.
  - discriminate.
  - vm_compute. reflexivity.
  - rewrite Hlim in H1, H2. split; [exact H1 | exact H2].
Defined.
